(** * Kafka fetch handler: the operation context and its value types

    A shallow embedding of [src/v/kafka/server/handlers/fetch.h]: the
    fetch operation context ([op_context]) with its stop predicate, the
    partition traversal, the read result and the per-shard plan.  Two
    further parts follow it: the deployment and removal of transforms of
    the transform service, and the validation of replica sets and integer
    query parameters of the admin server.

    Machine integers are integers of [Z] with the wrap-around written
    out; [std::optional], [std::unique_ptr] and [ss::foreign_ptr] are
    [option]; a call that the C++ code leaves undefined or that trips
    an assertion returns [None]. *)

From Stdlib Require Import ZArith List Bool Lia String.
Import ListNotations.
Local Open Scope Z_scope.

(** ** Machine integers *)

Module Int.

(** [static_cast<int32_t>(x)] for an unsigned [x]: the low 32 bits are
    kept and bit 31 is the sign. *)
Definition static_cast_int32 (x : Z) : Z :=
  let lo := Z.land x (Z.ones 32) in
  if Z.testbit lo 31 then lo - 2 ^ 32 else lo.

(** The value a 32-bit pattern [u] (with [0 <= u < 2^32]) has when it is
    read as a signed integer. *)
Definition reinterpret_signed32 (u : Z) : Z :=
  if u <? 2 ^ 31 then u else u - 2 ^ 32.

Definition int32_min : Z := - 2 ^ 31.
Definition int32_max : Z := 2 ^ 31 - 1.
Definition size_max : Z := 2 ^ 64 - 1.

Definition is_int32 (x : Z) : Prop := int32_min <= x <= int32_max.
Definition is_size (x : Z) : Prop := 0 <= x <= size_max.

End Int.

(** ** The pieces of the protocol the header relies on *)

(** Modelled from the spec: the [error_code] enumeration is declared in
    the protocol headers, which are not among the sources.  [fetch.h]
    names [none] only; the other constructors are the per-partition and
    session errors the specification lists. *)
Inductive error_code : Type :=
| none
| offset_out_of_range
| unknown_topic_or_partition
| not_leader_for_partition
| request_timed_out
| fetch_session_id_not_found
| invalid_fetch_session_epoch.

(** [model::timeout_clock::time_point], counted in ticks of the clock. *)
Definition time_point : Type := Z.

(** [std::optional<T>] compared with a value by [<=]: an empty optional
    is below every value. *)
Definition optional_le (o : option time_point) (v : time_point) : bool :=
  match o with
  | Some d => d <=? v
  | None => true
  end.

(** [bool(o)] for an optional or a pointer. *)
Definition has_value {A : Type} (o : option A) : bool :=
  match o with
  | Some _ => true
  | None => false
  end.

Module fetch_partition.
Record t : Type := mk {
  partition_index : Z;
  fetch_offset : Z;
  max_bytes : Z
}.
End fetch_partition.

Module fetch_topic.
Record t : Type := mk {
  name : string;
  fetch_partitions : list fetch_partition.t
}.
End fetch_topic.

Module fetch_request_data.
Record t : Type := mk {
  max_wait_ms : Z;
  min_bytes : Z;
  max_bytes : Z;
  session_id : Z;
  session_epoch : Z;
  topics : list fetch_topic.t
}.
End fetch_request_data.

Module fetch_request.

Record t : Type := mk { data : fetch_request_data.t }.

(** The value of [fetch_request::const_iterator]: the current topic and
    the current partition of it. *)
Record value_type : Type := mk_value {
  topic : fetch_topic.t;
  partition : fetch_partition.t
}.

(** Modelled from the spec: [cbegin() .. cend()] is declared in the
    protocol header, which is not among the sources.  The request is an
    ordered sequence of topics, each with its ordered partitions, and the
    iterator walks the partitions topic by topic. *)
Definition range (r : t) : list value_type :=
  flat_map
    (fun tp => map (mk_value tp) (fetch_topic.fetch_partitions tp))
    (fetch_request_data.topics (data r)).

(** Modelled from the spec: [empty()] holds when the request lists no
    partition ([cbegin() == cend()]). *)
Definition empty (r : t) : bool :=
  match range r with
  | [] => true
  | _ :: _ => false
  end.

(** Modelled from the spec: [debounce_delay()] is the wait the caller
    asked for, absent for a request that does not wait (a maximal wait of
    zero or less). *)
Definition debounce_delay (r : t) : option Z :=
  if fetch_request_data.max_wait_ms (data r) <=? 0 then None
  else Some (fetch_request_data.max_wait_ms (data r)).

End fetch_request.

(** The argument of the callback of [for_each_fetch_partition]; the four
    fields are the ones the header initialises. *)
Module fetch_session_partition.
Record t : Type := mk {
  topic : string;
  partition : Z;
  max_bytes : Z;
  fetch_offset : Z
}.
End fetch_session_partition.

Module fetch_session.

(** Modelled from the spec: a session owns an insertion-ordered mapping
    from topic-partition to its cursor; the list holds the entries in
    insertion order. *)
Record t : Type := mk {
  id : Z;
  epoch : Z;
  partitions : list fetch_session_partition.t
}.

(** [cbegin_insertion_order() .. cend_insertion_order()]. *)
Definition insertion_order (s : t) : list fetch_session_partition.t :=
  partitions s.

Definition empty (s : t) : bool :=
  match partitions s with
  | [] => true
  | _ :: _ => false
  end.

End fetch_session.

Module fetch_session_ctx.

(** Modelled from the spec: the session of the request, if it has one,
    and whether the request is a full fetch. *)
Record t : Type := mk {
  session : option fetch_session.t;
  is_full_fetch : bool
}.

Definition is_sessionless (c : t) : bool := negb (has_value (session c)).

End fetch_session_ctx.

(** ** The fetch operation context *)

(** The fields of [op_context] the inline members read.  The request
    context, the service group and the response under construction are
    not read by them and are left out. *)
Record op_context : Type := mk_op_context {
  request : fetch_request.t;
  bytes_left : Z;
  deadline : option time_point;
  response_size : Z;
  response_error : bool;
  initial_fetch : bool;
  session_ctx : fetch_session_ctx.t
}.

Definition is_empty_request (c : op_context) : bool :=
  if fetch_session_ctx.is_sessionless (session_ctx c)
     || fetch_session_ctx.is_full_fetch (session_ctx c)
  then fetch_request.empty (request c)
  else
    match fetch_session_ctx.session (session_ctx c) with
    | Some s => fetch_session.empty s && fetch_request.empty (request c)
    | None => false (* not reached: the context has a session here *)
    end.

Definition over_min_bytes (c : op_context) : bool :=
  Int.static_cast_int32 (response_size c)
  >=? fetch_request_data.min_bytes (fetch_request.data (request c)).

(** [now] is the value of [model::timeout_clock::now()] at the call. *)
Definition should_stop_fetch (c : op_context) (now : time_point) : bool :=
  negb (has_value (fetch_request.debounce_delay (request c)))
  || over_min_bytes c
  || is_empty_request c
  || response_error c
  || optional_le (deadline c) now.

(** [std::for_each] over a range with a callback that acts on a state. *)
Definition for_each {A S : Type} (l : list A) (f : A -> S -> S) (s : S) : S :=
  fold_left (fun acc a => f a acc) l s.

Definition for_each_fetch_partition {S : Type}
    (f : fetch_session_partition.t -> S -> S) (c : op_context) (s : S) : S :=
  if fetch_session_ctx.is_full_fetch (session_ctx c)
     || fetch_session_ctx.is_sessionless (session_ctx c)
  then
    for_each (fetch_request.range (request c))
      (fun p =>
         f (fetch_session_partition.mk
              (fetch_topic.name (fetch_request.topic p))
              (fetch_partition.partition_index (fetch_request.partition p))
              (fetch_partition.max_bytes (fetch_request.partition p))
              (fetch_partition.fetch_offset (fetch_request.partition p))))
      s
  else
    match fetch_session_ctx.session (session_ctx c) with
    | Some sess => for_each (fetch_session.insertion_order sess) f s
    | None => s (* not reached: the context has a session here *)
    end.

(** The calls of the callback, in the order they are made. *)
Definition visited (c : op_context) : list fetch_session_partition.t :=
  for_each_fetch_partition (fun p acc => acc ++ [p]) c [].

(** ** Per-partition configuration *)

Inductive isolation_level : Type :=
| read_uncommitted
| read_committed.

Module ntp.
(** Namespace, topic and partition: the address of a log partition. *)
Record t : Type := mk {
  ns : string;
  topic : string;
  partition : Z
}.
End ntp.

Module fetch_config.
Record t : Type := mk {
  start_offset : Z;
  max_offset : Z;
  isolation : isolation_level;
  max_bytes : Z;
  timeout : time_point;
  strict_max_bytes : bool
}.
End fetch_config.

Module ntp_fetch_config.

Record t : Type := mk {
  ntp : ntp.t;
  cfg : fetch_config.t;
  materialized_ntp : option ntp.t
}.

Definition is_materialized (c : t) : bool := has_value (materialized_ntp c).

End ntp_fetch_config.

(** ** Read results *)

(** An [iobuf] by its content. *)
Definition iobuf : Type := list Byte.byte.

Definition iobuf_empty (b : iobuf) : bool :=
  match b with
  | [] => true
  | _ :: _ => false
  end.

(** Modelled from the spec: a range of offsets of an aborted transaction
    ([cluster::rm_stm::tx_range] is declared outside the sources). *)
Record tx_range : Type := mk_tx_range {
  tx_first : Z;
  tx_last : Z
}.

Module read_result.

(** [std::variant<data_t, foreign_data_t>]; either pointer may be null. *)
Inductive variant_t : Type :=
| data_t (d : option iobuf)
| foreign_data_t (d : option iobuf).

Record t : Type := mk {
  data : variant_t;
  start_offset : Z;
  high_watermark : Z;
  last_stable_offset : Z;
  error : error_code;
  partition : Z;
  aborted_transactions : list tx_range
}.

Section Constructors.

(** The values of a default-constructed [model::offset] and
    [model::partition_id]; both types are declared outside the sources. *)
Variable default_offset : Z.
Variable default_partition : Z.

(** A default-constructed variant holds its first alternative, a null
    [std::unique_ptr]. *)
Definition default_data : variant_t := data_t None.

(** [explicit read_result(error_code e)] *)
Definition of_error (e : error_code) : t :=
  mk default_data default_offset default_offset default_offset e
     default_partition [].

(** [read_result(variant_t, offset, offset, offset, vector<tx_range>)] *)
Definition of_data (d : variant_t) (start hw lso : Z)
    (aborted : list tx_range) : t :=
  mk d start hw lso none default_partition aborted.

(** [read_result(offset, offset, offset)] *)
Definition of_offsets (start hw lso : Z) : t :=
  mk default_data start hw lso none default_partition [].

(** The values the three constructors build. *)
Inductive constructed : t -> Prop :=
| constructed_of_error e : constructed (of_error e)
| constructed_of_data d start hw lso aborted :
    constructed (of_data d start hw lso aborted)
| constructed_of_offsets start hw lso :
    constructed (of_offsets start hw lso).

End Constructors.

(** [has_data()]; [d->empty()] on a null foreign pointer is undefined. *)
Definition has_data (r : t) : option bool :=
  match data r with
  | data_t d => Some (has_value d)
  | foreign_data_t (Some b) => Some (negb (iobuf_empty b))
  | foreign_data_t None => None
  end.

(** [get_data()]: the buffer the held pointer points to; [None] when the
    pointer is null and the dereference is undefined. *)
Definition get_data (r : t) : option iobuf :=
  match data r with
  | data_t d => d
  | foreign_data_t d => d
  end.

(** [release_data() &&]: the bytes handed to the caller, moved out of a
    local buffer or copied from a foreign one before that pointer is
    reset; [None] when the held pointer is null. *)
Definition release_data (r : t) : option iobuf :=
  match data r with
  | data_t (Some b) => Some b
  | data_t None => None
  | foreign_data_t (Some b) => Some b
  | foreign_data_t None => None
  end.

End read_result.

(** ** Per-shard plans *)

(** A [response_iterator] by the position of its slot in the response. *)
Record response_iterator : Type := mk_response_iterator { slot : nat }.

Module shard_fetch.

Record t : Type := mk {
  requests : list ntp_fetch_config.t;
  responses : list response_iterator
}.

(** A default-constructed [shard_fetch]: both vectors are empty. *)
Definition init : t := mk [] [].

Definition push_back (config : ntp_fetch_config.t) (it : response_iterator)
    (sf : t) : t :=
  mk (requests sf ++ [config]) (responses sf ++ [it]).

(** [empty()]; [None] when the assertion on the two sizes fails. *)
Definition empty (sf : t) : option bool :=
  if Nat.eqb (List.length (requests sf)) (List.length (responses sf))
  then Some (match requests sf with [] => true | _ :: _ => false end)
  else None.

(** The states reached from the empty one by calls of [push_back]. *)
Inductive built : t -> Prop :=
| built_init : built init
| built_push_back config it sf : built sf -> built (push_back config it sf).

End shard_fetch.

Module fetch_plan.

Record t : Type := mk { fetches_per_shard : list shard_fetch.t }.

(** [explicit fetch_plan(size_t shards)]: one empty entry per shard. *)
Definition make (shards : nat) : t := mk (repeat shard_fetch.init shards).

End fetch_plan.

(** ** The statements of the specification *)

(** The partition a request entry stands for, as the callback receives it. *)
Definition requested (p : fetch_request.value_type) : fetch_session_partition.t :=
  fetch_session_partition.mk
    (fetch_topic.name (fetch_request.topic p))
    (fetch_partition.partition_index (fetch_request.partition p))
    (fetch_partition.max_bytes (fetch_request.partition p))
    (fetch_partition.fetch_offset (fetch_request.partition p)).

(** The specification's empty request: a sessionless or full-fetch request
    that lists no partition, or a session-backed one whose stored set and
    whose own partition list are both empty. *)
Definition spec_empty_request (c : op_context) : Prop :=
  ((fetch_session_ctx.session (session_ctx c) = None
    \/ fetch_session_ctx.is_full_fetch (session_ctx c) = true)
   /\ fetch_request.range (request c) = [])
  \/ (exists s,
        fetch_session_ctx.session (session_ctx c) = Some s
        /\ fetch_session_ctx.is_full_fetch (session_ctx c) = false
        /\ fetch_session.partitions s = []
        /\ fetch_request.range (request c) = []).

(** The specification's deadline test: a deadline that is set lies at or
    before the current time (one that is not set passes the test). *)
Definition deadline_reached (c : op_context) (now : time_point) : Prop :=
  forall d, deadline c = Some d -> d <= now.

(** ** Sample states *)

Module Samples.

Definition part (index offset : Z) : fetch_partition.t :=
  fetch_partition.mk index offset 1048576.

(** Two topics, [A] with partitions 0 and 1 and [B] with partition 0. *)
Definition topics_ab : list fetch_topic.t :=
  [ fetch_topic.mk "A" [part 0 10; part 1 20];
    fetch_topic.mk "B" [part 0 30] ].

Definition req (max_wait min_bytes : Z) (topics : list fetch_topic.t)
    : fetch_request.t :=
  fetch_request.mk
    (fetch_request_data.mk max_wait min_bytes 52428800 0 0 topics).

Definition sessionless : fetch_session_ctx.t :=
  fetch_session_ctx.mk None false.

Definition stored : list fetch_session_partition.t :=
  [ fetch_session_partition.mk "B" 0 1048576 30;
    fetch_session_partition.mk "A" 1 1048576 20 ].

Definition incremental (ps : list fetch_session_partition.t)
    : fetch_session_ctx.t :=
  fetch_session_ctx.mk (Some (fetch_session.mk 7 3 ps)) false.

Definition ctx (r : fetch_request.t) (d : option time_point) (size : Z)
    (err : bool) (sc : fetch_session_ctx.t) : op_context :=
  mk_op_context r 52428800 d size err true sc.

(** A request that waits up to 500 ticks for 1000 bytes; nothing read. *)
Definition waiting : op_context :=
  ctx (req 500 1000 topics_ab) (Some 500) 0 false sessionless.

(** The same request after 1200 bytes have been read. *)
Definition satisfied : op_context :=
  ctx (req 500 1000 topics_ab) (Some 500) 1200 false sessionless.

(** The same request after a partition has failed. *)
Definition failed : op_context :=
  ctx (req 500 1000 topics_ab) (Some 500) 0 true sessionless.

(** The same request in a context whose deadline was never set. *)
Definition no_deadline : op_context :=
  ctx (req 500 1000 topics_ab) None 0 false sessionless.

(** No minimum, and [2^31] bytes in the response. *)
Definition no_minimum_large : op_context :=
  ctx (req 500 0 topics_ab) (Some 500) (2 ^ 31) false sessionless.

(** No minimum, nothing read. *)
Definition no_minimum : op_context :=
  ctx (req 500 0 topics_ab) (Some 500) 0 false sessionless.

(** An incremental request on a session with two stored partitions. *)
Definition session_backed : op_context :=
  ctx (req 500 1000 []) (Some 500) 0 false (incremental stored).

(** An incremental request with nothing stored and nothing asked. *)
Definition session_idle : op_context :=
  ctx (req 500 1000 []) (Some 500) 0 false (incremental []).

Definition cfg (topic : string) (p : Z) : ntp_fetch_config.t :=
  ntp_fetch_config.mk (ntp.mk "kafka" topic p)
    (fetch_config.mk 0 100 read_committed 1048576 500 false) None.

Definition two_fetches : shard_fetch.t :=
  shard_fetch.push_back (cfg "B" 0) (mk_response_iterator 2)
    (shard_fetch.push_back (cfg "A" 0) (mk_response_iterator 0)
       shard_fetch.init).

End Samples.

(** ** The transform service

    The deployment and removal of transforms of the transform service
    ([transform::service]).  The feature table, the gate, the plugin
    frontend and the RPC client are collaborators; a run of an operation
    is the list of the calls it makes on them, in order, with its outcome.
    Log lines are left out.  Time is counted in seconds here. *)

Module transform.

(** [cluster::errc], declared outside the sources: the enumerators the
    service names, and [errc_other] for each of the remaining ones. *)
Inductive errc : Type :=
| success
| feature_disabled
| transform_does_not_exist
| errc_other (n : nat).

Definition errc_eqb (a b : errc) : bool :=
  match a, b with
  | success, success => true
  | feature_disabled, feature_disabled => true
  | transform_does_not_exist, transform_does_not_exist => true
  | errc_other n, errc_other m => Nat.eqb n m
  | _, _ => false
  end.

Inductive exn : Type :=
| gate_closed_exception
| runtime_error (what : string)
| other_exception (n : nat).

(** What awaiting a future gives: its value, or the exception it holds. *)
Inductive outcome (A : Type) : Type :=
| returned (a : A)
| threw (e : exn).

Arguments returned {A} a.
Arguments threw {A} e.

Definition uuid_t : Type := Z.

(** The fields of [model::transform_metadata] the service reads or sets. *)
Record transform_metadata : Type := mk_transform_metadata {
  name : string;
  uuid : uuid_t;
  source_ptr : Z
}.

(** The result of [plugin_frontend::remove_transform]. *)
Record mutation_result : Type := mk_mutation_result {
  ec : errc;
  removed_uuid : uuid_t
}.

(** The calls an operation makes on the plugin frontend and the RPC
    client, with their arguments. *)
Inductive call : Type :=
| remove_transform_call (name : string) (timeout : Z)
| store_wasm_binary_call (binary : iobuf) (timeout : Z)
| upsert_transform_call (meta : transform_metadata) (timeout : Z)
| delete_wasm_binary_call (key : uuid_t) (timeout : Z).

Record env : Type := mk_env {
  wasm_transforms_active : bool;
  gate_closed : bool;
  now : Z;
  remove_transform : string -> Z -> outcome mutation_result;
  store_wasm_binary : iobuf -> Z -> outcome (uuid_t * Z + errc);
  upsert_transform : transform_metadata -> Z -> outcome errc;
  delete_wasm_binary : uuid_t -> Z -> outcome errc
}.

(** A coroutine: the calls made so far and the outcome. *)
Definition task (A : Type) : Type := (list call * outcome A)%type.

Definition co_return {A : Type} (a : A) : task A := ([], returned a).

Definition throw {A : Type} (e : exn) : task A := ([], threw e).

Definition bind {A B : Type} (m : task A) (k : A -> task B) : task B :=
  match m with
  | (calls, returned a) => (calls ++ fst (k a), snd (k a))
  | (calls, threw e) => (calls, threw e)
  end.

(** [co_await] of a call on a collaborator. *)
Definition co_await {A : Type} (c : call) (o : outcome A) : task A := ([c], o).

(** [ss::coroutine::as_future]: the exception of the awaited task becomes
    a value. *)
Definition as_future {A : Type} (m : task A) : task (outcome A) :=
  (fst m, returned (snd m)).

Notation "x <- m ;; k" := (bind m (fun x => k))
  (at level 61, m at next level, right associativity).

Definition wasm_binary_timeout : Z := 3.
Definition metadata_timeout : Z := 1.

(** [_gate.hold()]: throws once the gate is closed. *)
Definition hold (e : env) : task unit :=
  if gate_closed e then throw gate_closed_exception else co_return tt.

Definition cleanup_wasm_binary (e : env) (key : uuid_t) : task unit :=
  result <- as_future
              (co_await (delete_wasm_binary_call key wasm_binary_timeout)
                 (delete_wasm_binary e key wasm_binary_timeout)) ;;
  match result with
  | threw _ => co_return tt
  | returned err =>
      if errc_eqb err success then co_return tt else co_return tt
  end.

Definition delete_transform (e : env) (name : string) : task errc :=
  if negb (wasm_transforms_active e) then co_return feature_disabled
  else
    _ <- hold e ;;
    result <- co_await (remove_transform_call name (now e + metadata_timeout))
                (remove_transform e name (now e + metadata_timeout)) ;;
    if errc_eqb (ec result) transform_does_not_exist then co_return success
    else if negb (errc_eqb (ec result) success) then co_return (ec result)
    else
      _ <- cleanup_wasm_binary e (removed_uuid result) ;;
      co_return success.

Definition deploy_transform (e : env) (meta : transform_metadata)
    (binary : iobuf) : task errc :=
  if negb (wasm_transforms_active e) then co_return feature_disabled
  else
    _ <- hold e ;;
    result <- co_await (store_wasm_binary_call binary wasm_binary_timeout)
                (store_wasm_binary e binary wasm_binary_timeout) ;;
    match result with
    | inr err => co_return err
    | inl (key, offset) =>
        let meta := mk_transform_metadata (name meta) key offset in
        err <- co_await (upsert_transform_call meta (now e + metadata_timeout))
                 (upsert_transform e meta (now e + metadata_timeout)) ;;
        if negb (errc_eqb err success)
        then _ <- cleanup_wasm_binary e key ;; co_return err
        else co_return err
    end.

(** [service::start] and [service::stop]. *)
Definition start (e : env) : task unit := throw (runtime_error "unimplemented").
Definition stop (e : env) : task unit := throw (runtime_error "unimplemented").

(** The calls of a run and its outcome. *)
Definition calls {A : Type} (m : task A) : list call := fst m.
Definition result {A : Type} (m : task A) : outcome A := snd m.

(** An environment for the examples: the transform [tee] exists with the
    binary 11; binaries are stored under the key 42 at offset 8; updates
    fail with [errc_other 9]; the deletion of a binary throws. *)
Definition sample_env : env :=
  mk_env true false 100
    (fun name _ =>
       if String.eqb name "tee" then returned (mk_mutation_result success 11)
       else returned (mk_mutation_result transform_does_not_exist 0))
    (fun _ _ => returned (inl (42, 8)))
    (fun _ _ => returned (errc_other 9))
    (fun _ _ => threw (other_exception 1)).

(** An environment in which every collaborator succeeds. *)
Definition healthy_env : env :=
  mk_env true false 100
    (fun _ _ => returned (mk_mutation_result success 11))
    (fun _ _ => returned (inl (42, 8)))
    (fun _ _ => returned success)
    (fun _ _ => returned success).

End transform.

(** ** The admin server: replica sets in request bodies

    [validate_set_replicas] of [redpanda/admin/server.cc], with the JSON
    schema it applies.  A JSON document is a value of [json]; the calls of
    the JSON library that assert (a member that is missing, a member of a
    value that is no object) give [undefined]. *)

Module admin.

#[warnings="-register-all"]
Inductive json : Type :=
| j_null
| j_bool (b : bool)
| j_int (n : Z)
| j_double
| j_string (s : string)
| j_array (items : list json)
| j_object (members : list (string * json)).

Definition is_number (v : json) : bool :=
  match v with
  | j_int _ | j_double => true
  | _ => false
  end.

(** [IsInt()]: an integer that fits [int]. *)
Definition IsInt (v : json) : bool :=
  match v with
  | j_int n => (Int.int32_min <=? n) && (n <=? Int.int32_max)
  | _ => false
  end.

(** [r[name]]: the first member of the object with that name. *)
Definition member (r : json) (name : string) : option json :=
  match r with
  | j_object members =>
      option_map snd (find (fun m => String.eqb (fst m) name) members)
  | _ => None
  end.

(** The schema of [make_set_replicas_validator]: an array of objects whose
    members are [node_id] and [core] only, both required, both numbers. *)
Definition conforms_item (v : json) : bool :=
  match v with
  | j_object members =>
      forallb
        (fun m =>
           (String.eqb (fst m) "node_id" || String.eqb (fst m) "core")
           && is_number (snd m))
        members
      && existsb (fun m => String.eqb (fst m) "node_id") members
      && existsb (fun m => String.eqb (fst m) "core") members
  | _ => false
  end.

Definition conforms (doc : json) : bool :=
  match doc with
  | j_array items => forallb conforms_item items
  | _ => false
  end.

Record broker_shard : Type := mk_broker_shard {
  node_id : Z;
  shard : Z
}.

(** The reasons of the [bad_request_exception]s of the function. *)
Inductive reason : Type :=
| not_conforming_to_schema
| expected_array
| must_be_integers
| non_existent_node_shard (node shard : Z)
| node_more_than_once (node : Z).

Inductive result (A : Type) : Type :=
| ok (a : A)
| bad_request_exception (r : reason)
| undefined.

Arguments ok {A} a.
Arguments bad_request_exception {A} r.
Arguments undefined {A}.

(** [static_cast<uint32_t>(n)] for an [int]. *)
Definition static_cast_uint32 (n : Z) : Z := Z.land n (Z.ones 32).

(** The body of the loop over the array, from the items still to visit
    and the replicas accepted so far. *)
Fixpoint collect (validate_shard : Z -> Z -> bool) (items : list json)
    (replicas : list broker_shard) : result (list broker_shard) :=
  match items with
  | [] => ok replicas
  | r :: rest =>
      match member r "node_id", member r "core" with
      | Some node_id_json, Some core_json =>
          if negb (IsInt node_id_json) || negb (IsInt core_json)
          then bad_request_exception must_be_integers
          else
            match node_id_json, core_json with
            | j_int node, j_int core =>
                let shard := static_cast_uint32 core in
                if negb (validate_shard node shard)
                then bad_request_exception (non_existent_node_shard node shard)
                else if existsb (fun bs => node_id bs =? node) replicas
                then bad_request_exception (node_more_than_once node)
                else collect validate_shard rest
                       (replicas ++ [mk_broker_shard node shard])
            | _, _ => undefined
            end
      | _, _ => undefined
      end
  end.

Definition validate_set_replicas (validate_shard : Z -> Z -> bool)
    (doc : json) : result (list broker_shard) :=
  if negb (conforms doc) then bad_request_exception not_conforming_to_schema
  else
    match doc with
    | j_array items => collect validate_shard items []
    | _ => bad_request_exception expected_array
    end.

(** What an item of the array asks for, when both members are integers. *)
Definition requested_replica (r : json) : option broker_shard :=
  match member r "node_id", member r "core" with
  | Some (j_int node), Some (j_int core) =>
      if IsInt (j_int node) && IsInt (j_int core)
      then Some (mk_broker_shard node (static_cast_uint32 core))
      else None
  | _, _ => None
  end.

(** The replica sets the function is meant to accept: every replica is
    on a node and shard that exist, and no node is named twice. *)
Definition well_placed (validate_shard : Z -> Z -> bool)
    (replicas : list broker_shard) : Prop :=
  Forall (fun bs => validate_shard (node_id bs) (shard bs) = true) replicas
  /\ NoDup (map node_id replicas).

Definition replica (node core : Z) : json :=
  j_object [("node_id"%string, j_int node); ("core"%string, j_int core)].

(** What [std::stoi] does with a string: the [int] it reads, or one of
    its two exceptions. *)
Inductive stoi_result : Type :=
| stoi_value (n : Z)
| invalid_argument
| out_of_range.

(** How a call of [get_integer_query_param] ends. *)
Inductive param_result : Type :=
| param_value (v : option Z)
| param_bad_request
| param_out_of_range.

(** [get_integer_query_param]; [query_parameters] is the map of the
    request, [stoi] is [std::stoi].  The [int] read is converted to the
    [uint64_t] of the result; only [std::invalid_argument] is caught. *)
Definition get_integer_query_param (stoi : string -> stoi_result)
    (query_parameters : string -> option string) (name : string)
    : param_result :=
  match query_parameters name with
  | None => param_value None
  | Some str_param =>
      match stoi str_param with
      | stoi_value n => param_value (Some (Z.land n (Z.ones 64)))
      | invalid_argument => param_bad_request
      | out_of_range => param_out_of_range
      end
  end.

(** A fragment of [std::stoi] for the examples. *)
Definition sample_stoi (s : string) : stoi_result :=
  if String.eqb s "30" then stoi_value 30
  else if String.eqb s "-1" then stoi_value (- 1)
  else if String.eqb s "99999999999" then out_of_range
  else invalid_argument.

Definition sample_query (name : string) : option string :=
  if String.eqb name "limit" then Some "-1"%string
  else if String.eqb name "offset" then Some "30"%string
  else None.

End admin.

(** ** The narrowing cast *)

Lemma testbit_31_of_low32 (u : Z) :
  0 <= u < 2 ^ 32 -> Z.testbit u 31 = negb (u <? 2 ^ 31).
Proof.
  intros Hu.
  destruct (Z.ltb_spec u (2 ^ 31)) as [Hlt | Hge]; cbn [negb].
  - apply Z.bits_above_log2; [lia |].
    destruct (Z.eq_dec u 0) as [-> | Hnz]; [reflexivity |].
    apply Z.log2_lt_pow2; lia.
  - apply Z.testbit_true; [lia |].
    assert (Hq : u / 2 ^ 31 = 1).
    { symmetry; apply Z.div_unique with (r := u - 2 ^ 31); lia. }
    rewrite Hq; reflexivity.
Qed.

Lemma static_cast_int32_mod (x : Z) :
  Int.static_cast_int32 x = Int.reinterpret_signed32 (x mod 2 ^ 32).
Proof.
  unfold Int.static_cast_int32, Int.reinterpret_signed32; cbv zeta.
  rewrite Z.land_ones by lia.
  pose proof (Z.mod_pos_bound x (2 ^ 32) ltac:(lia)) as Hb.
  rewrite (testbit_31_of_low32 _ Hb).
  destruct (x mod 2 ^ 32 <? 2 ^ 31); reflexivity.
Qed.

Lemma static_cast_int32_range (x : Z) :
  Int.is_int32 (Int.static_cast_int32 x).
Proof.
  rewrite static_cast_int32_mod.
  unfold Int.is_int32, Int.int32_min, Int.int32_max, Int.reinterpret_signed32.
  pose proof (Z.mod_pos_bound x (2 ^ 32) ltac:(lia)) as Hb.
  destruct (Z.ltb_spec (x mod 2 ^ 32) (2 ^ 31)); lia.
Qed.

Lemma static_cast_int32_small (x : Z) :
  0 <= x < 2 ^ 31 -> Int.static_cast_int32 x = x.
Proof.
  intros Hx. rewrite static_cast_int32_mod.
  rewrite Z.mod_small by lia.
  unfold Int.reinterpret_signed32.
  destruct (Z.ltb_spec x (2 ^ 31)); lia.
Qed.

Example static_cast_int32_1200 : Int.static_cast_int32 1200 = 1200.
Proof. reflexivity. Qed.

Example static_cast_int32_wraps : Int.static_cast_int32 (2 ^ 31) = - 2 ^ 31.
Proof. reflexivity. Qed.

Example static_cast_int32_high_bits : Int.static_cast_int32 (2 ^ 32 + 5) = 5.
Proof. reflexivity. Qed.

(** ** The stop predicate *)

Lemma optional_le_spec (o : option time_point) (now : time_point) :
  optional_le o now = true <-> (forall d, o = Some d -> d <= now).
Proof.
  destruct o as [d |]; cbn.
  - rewrite Z.leb_le. split.
    + intros H d' [= <-]. exact H.
    + intros H. apply H. reflexivity.
  - split; [intros _ d' [=] | reflexivity].
Qed.

Lemma debounce_delay_none (r : fetch_request.t) :
  negb (has_value (fetch_request.debounce_delay r)) = true
  <-> fetch_request.debounce_delay r = None.
Proof.
  destruct (fetch_request.debounce_delay r); cbn; split; congruence.
Qed.

Lemma should_stop_fetch_cases (c : op_context) (now : time_point) :
  should_stop_fetch c now = true <->
  negb (has_value (fetch_request.debounce_delay (request c))) = true
  \/ over_min_bytes c = true
  \/ is_empty_request c = true
  \/ response_error c = true
  \/ optional_le (deadline c) now = true.
Proof.
  unfold should_stop_fetch.
  rewrite !orb_true_iff. tauto.
Qed.

Example waiting_goes_on : should_stop_fetch Samples.waiting 0 = false.
Proof. reflexivity. Qed.

Example waiting_stops_at_deadline : should_stop_fetch Samples.waiting 500 = true.
Proof. reflexivity. Qed.

Example satisfied_stops : should_stop_fetch Samples.satisfied 0 = true.
Proof. reflexivity. Qed.

(** C1: [should_stop_fetch] returns true exactly when the request has no
    debounce delay, or [over_min_bytes] holds, or the request is empty, or
    [response_error] is set, or the deadline is at or before the current
    time (the comparison of the optional deadline, which an unset deadline
    passes). *)
Theorem should_stop_fetch_iff (c : op_context) (now : time_point) :
  should_stop_fetch c now = true <->
  fetch_request.debounce_delay (request c) = None
  \/ over_min_bytes c = true
  \/ is_empty_request c = true
  \/ response_error c = true
  \/ deadline_reached c now.
Proof.
  rewrite should_stop_fetch_cases, debounce_delay_none.
  unfold deadline_reached. rewrite optional_le_spec. reflexivity.
Qed.

Lemma over_min_bytes_characterisation (c : op_context) :
  over_min_bytes c = true <->
  fetch_request_data.min_bytes (fetch_request.data (request c))
  <= Int.reinterpret_signed32 (response_size c mod 2 ^ 32).
Proof.
  unfold over_min_bytes. rewrite static_cast_int32_mod. apply Z.geb_le.
Qed.

(** C4: [over_min_bytes] returns true exactly when [response_size] modulo
    [2^32], read as a signed 32-bit integer, is at least [min_bytes]; with
    [min_bytes] zero or negative it holds for an empty response. *)
Theorem over_min_bytes_iff (c : op_context) :
  (over_min_bytes c = true <->
   fetch_request_data.min_bytes (fetch_request.data (request c))
   <= Int.reinterpret_signed32 (response_size c mod 2 ^ 32))
  /\ (fetch_request_data.min_bytes (fetch_request.data (request c)) <= 0 ->
      response_size c = 0 ->
      over_min_bytes c = true).
Proof.
  split; [apply over_min_bytes_characterisation |].
  intros Hmin Hzero.
  apply over_min_bytes_characterisation.
  rewrite Hzero. exact Hmin.
Qed.

Lemma over_min_bytes_iff_witness :
  over_min_bytes Samples.no_minimum = true.
Proof.
  apply (proj2 (over_min_bytes_iff Samples.no_minimum)).
  - cbn. lia.
  - reflexivity.
Defined.

(** C2, as stated, fails: with [min_bytes = 0] and a [response_size] of
    [2^31] bytes the cast yields a negative number, [over_min_bytes] is
    false, and before the deadline the operation goes on waiting. *)
Lemma min_bytes_zero_large_response_goes_on :
  fetch_request_data.min_bytes
    (fetch_request.data (request Samples.no_minimum_large)) <= 0
  /\ Int.is_size (response_size Samples.no_minimum_large)
  /\ over_min_bytes Samples.no_minimum_large = false
  /\ should_stop_fetch Samples.no_minimum_large 0 = false.
Proof.
  split; [cbn; lia |].
  split; [unfold Int.is_size, Int.size_max; cbn; lia |].
  split; reflexivity.
Qed.

(** C2, amended: when [min_bytes] is zero or negative and [response_size]
    modulo [2^32] is below [2^31] (so for every response of less than
    [2^31] bytes), [over_min_bytes] holds and [should_stop_fetch] returns
    true at every time. *)
Theorem min_bytes_nonpositive_stops (c : op_context) (now : time_point) :
  fetch_request_data.min_bytes (fetch_request.data (request c)) <= 0 ->
  response_size c mod 2 ^ 32 < 2 ^ 31 ->
  over_min_bytes c = true /\ should_stop_fetch c now = true.
Proof.
  intros Hmin Hsize.
  assert (Hover : over_min_bytes c = true).
  { apply over_min_bytes_characterisation.
    unfold Int.reinterpret_signed32.
    pose proof (Z.mod_pos_bound (response_size c) (2 ^ 32) ltac:(lia)).
    destruct (Z.ltb_spec (response_size c mod 2 ^ 32) (2 ^ 31)); lia. }
  split; [exact Hover |].
  apply should_stop_fetch_cases. tauto.
Qed.

Lemma min_bytes_nonpositive_stops_witness :
  over_min_bytes Samples.no_minimum = true
  /\ should_stop_fetch Samples.no_minimum 0 = true.
Proof.
  apply (min_bytes_nonpositive_stops Samples.no_minimum 0).
  - cbn. lia.
  - cbn. lia.
Defined.

(** C3: once [response_error] is set, [should_stop_fetch] returns true,
    whatever [response_size], [min_bytes] and the deadline are. *)
Theorem response_error_stops (c : op_context) (now : time_point) :
  response_error c = true -> should_stop_fetch c now = true.
Proof.
  intros Herr. apply should_stop_fetch_cases. tauto.
Qed.

Lemma response_error_stops_witness :
  over_min_bytes Samples.failed = false
  /\ optional_le (deadline Samples.failed) 0 = false
  /\ should_stop_fetch Samples.failed 0 = true.
Proof.
  split; [reflexivity | split; [reflexivity |]].
  apply (response_error_stops Samples.failed 0). reflexivity.
Defined.

(** C7: a state on which [should_stop_fetch] returns true at some time
    makes it return true again at that time and at every later one. *)
Theorem should_stop_fetch_stays (c : op_context) (now later : time_point) :
  should_stop_fetch c now = true ->
  now <= later ->
  should_stop_fetch c later = true.
Proof.
  intros Hstop Hle.
  apply should_stop_fetch_cases in Hstop.
  apply should_stop_fetch_cases.
  destruct Hstop as [H | [H | [H | [H | H]]]]; try tauto.
  do 4 right.
  rewrite optional_le_spec in *.
  intros d Hd. specialize (H d Hd). lia.
Qed.

Lemma should_stop_fetch_stays_witness :
  should_stop_fetch Samples.waiting 750 = true.
Proof.
  apply (should_stop_fetch_stays Samples.waiting 500 750).
  - reflexivity.
  - lia.
Defined.

(** C9: a context whose deadline is not set makes [should_stop_fetch]
    return true, whatever its other fields are. *)
Theorem unset_deadline_stops (c : op_context) (now : time_point) :
  deadline c = None -> should_stop_fetch c now = true.
Proof.
  intros Hnone. apply should_stop_fetch_cases.
  do 4 right. rewrite Hnone. reflexivity.
Qed.

Lemma unset_deadline_stops_witness :
  over_min_bytes Samples.no_deadline = false
  /\ is_empty_request Samples.no_deadline = false
  /\ should_stop_fetch Samples.no_deadline 0 = true.
Proof.
  split; [reflexivity | split; [reflexivity |]].
  apply (unset_deadline_stops Samples.no_deadline 0). reflexivity.
Defined.

(** ** The traversal of the partitions to fetch *)

Lemma for_each_collects {A B : Type} (g : A -> B) (l : list A) (acc : list B) :
  for_each l (fun a acc' => acc' ++ [g a]) acc = acc ++ map g l.
Proof.
  unfold for_each. revert acc.
  induction l as [| a l IH]; intros acc; cbn.
  - symmetry. apply app_nil_r.
  - rewrite IH, <- app_assoc. reflexivity.
Qed.

Lemma for_each_map {A B S : Type} (g : A -> B) (f : B -> S -> S)
    (l : list A) (s : S) :
  for_each l (fun a => f (g a)) s = for_each (map g l) f s.
Proof.
  unfold for_each. revert s.
  induction l as [| a l IH]; intros s; cbn; [reflexivity | apply IH].
Qed.

(** On the branch that dereferences the session, there is one. *)
Lemma session_on_else_branch (sc : fetch_session_ctx.t) :
  fetch_session_ctx.is_full_fetch sc || fetch_session_ctx.is_sessionless sc
  = false ->
  exists s, fetch_session_ctx.session sc = Some s.
Proof.
  unfold fetch_session_ctx.is_sessionless.
  destruct (fetch_session_ctx.session sc) as [s |]; cbn; [eauto |].
  rewrite orb_true_r. discriminate.
Qed.

(** Whatever the callback does, it is run on the visited partitions, in
    their order. *)
Lemma for_each_fetch_partition_by_visited {S : Type}
    (f : fetch_session_partition.t -> S -> S) (c : op_context) (s : S) :
  for_each_fetch_partition f c s = for_each (visited c) f s.
Proof.
  unfold visited, for_each_fetch_partition.
  destruct (fetch_session_ctx.is_full_fetch (session_ctx c)
            || fetch_session_ctx.is_sessionless (session_ctx c)).
  - rewrite (for_each_collects
               (fun p => fetch_session_partition.mk
                           (fetch_topic.name (fetch_request.topic p))
                           (fetch_partition.partition_index (fetch_request.partition p))
                           (fetch_partition.max_bytes (fetch_request.partition p))
                           (fetch_partition.fetch_offset (fetch_request.partition p)))).
    cbn [app]. symmetry. rewrite <- for_each_map. reflexivity.
  - destruct (fetch_session_ctx.session (session_ctx c)) as [sess |].
    + rewrite (for_each_collects (fun p => p)), map_id. reflexivity.
    + reflexivity.
Qed.

Example visited_sessionless :
  visited Samples.satisfied =
  [ fetch_session_partition.mk "A" 0 1048576 10;
    fetch_session_partition.mk "A" 1 1048576 20;
    fetch_session_partition.mk "B" 0 1048576 30 ].
Proof. reflexivity. Qed.

Example visited_session_backed : visited Samples.session_backed = Samples.stored.
Proof. reflexivity. Qed.

Lemma visited_request (c : op_context) :
  fetch_session_ctx.is_sessionless (session_ctx c) = true
  \/ fetch_session_ctx.is_full_fetch (session_ctx c) = true ->
  visited c = map requested (fetch_request.range (request c)).
Proof.
  intros Hreq. unfold visited, for_each_fetch_partition.
  assert (Hguard : fetch_session_ctx.is_full_fetch (session_ctx c)
                   || fetch_session_ctx.is_sessionless (session_ctx c) = true)
    by (apply orb_true_iff; tauto).
  rewrite Hguard.
  exact (for_each_collects requested (fetch_request.range (request c)) []).
Qed.

Lemma visited_session (c : op_context) (sess : fetch_session.t) :
  fetch_session_ctx.session (session_ctx c) = Some sess ->
  fetch_session_ctx.is_full_fetch (session_ctx c) = false ->
  visited c = fetch_session.insertion_order sess.
Proof.
  intros Hsess Hfull. unfold visited, for_each_fetch_partition.
  unfold fetch_session_ctx.is_sessionless. rewrite Hsess, Hfull. cbn.
  rewrite (for_each_collects (fun p => p)), map_id. reflexivity.
Qed.

(** C5: for a sessionless or full-fetch request the callback is run on
    exactly the partitions the request lists, in the order of the request,
    each with its topic name, partition index, max bytes and fetch offset;
    for an incremental request on a session it is run on exactly the
    partitions the session stores, in their insertion order. *)
Theorem for_each_fetch_partition_visits (c : op_context) :
  (fetch_session_ctx.is_sessionless (session_ctx c) = true
   \/ fetch_session_ctx.is_full_fetch (session_ctx c) = true ->
   visited c = map requested (fetch_request.range (request c)))
  /\ (forall sess,
        fetch_session_ctx.session (session_ctx c) = Some sess ->
        fetch_session_ctx.is_full_fetch (session_ctx c) = false ->
        visited c = fetch_session.insertion_order sess).
Proof.
  split.
  - apply visited_request.
  - intros sess. apply visited_session.
Qed.

Lemma for_each_fetch_partition_visits_witness :
  visited Samples.satisfied
  = map requested (fetch_request.range (request Samples.satisfied))
  /\ visited Samples.session_backed = Samples.stored.
Proof.
  split.
  - apply (proj1 (for_each_fetch_partition_visits Samples.satisfied)).
    left. reflexivity.
  - apply (proj2 (for_each_fetch_partition_visits Samples.session_backed)
             (fetch_session.mk 7 3 Samples.stored)); reflexivity.
Defined.

(** ** Empty requests *)

Lemma request_empty_spec (r : fetch_request.t) :
  fetch_request.empty r = true <-> fetch_request.range r = [].
Proof.
  unfold fetch_request.empty.
  destruct (fetch_request.range r); split; congruence.
Qed.

Lemma session_empty_spec (s : fetch_session.t) :
  fetch_session.empty s = true <-> fetch_session.partitions s = [].
Proof.
  unfold fetch_session.empty.
  destruct (fetch_session.partitions s); split; congruence.
Qed.

Lemma is_empty_request_spec (c : op_context) :
  is_empty_request c = true <-> spec_empty_request c.
Proof.
  unfold is_empty_request, spec_empty_request, fetch_session_ctx.is_sessionless.
  destruct (fetch_session_ctx.session (session_ctx c)) as [s |];
    destruct (fetch_session_ctx.is_full_fetch (session_ctx c)); cbn;
    rewrite ?andb_true_iff, ?request_empty_spec, ?session_empty_spec.
  - split.
    + intros H. left. auto.
    + intros [[_ H] | (s' & _ & Hf & _)]; [exact H | discriminate].
  - split.
    + intros [Hs Hr]. right. exists s. auto.
    + intros [[[H | H] _] | (s' & [= <-] & _ & Hs & Hr)];
        [discriminate | discriminate | auto].
  - split.
    + intros H. left. auto.
    + intros [[_ H] | (s' & H & _)]; [exact H | discriminate].
  - split.
    + intros H. left. auto.
    + intros [[_ H] | (s' & H & _)]; [exact H | discriminate].
Qed.

Lemma empty_request_visits_nothing (c : op_context) :
  is_empty_request c = true -> visited c = [].
Proof.
  intros Hempty. apply is_empty_request_spec in Hempty.
  destruct Hempty as [[Hkind Hr] | (s & Hs & Hf & Hp & Hr)].
  - rewrite visited_request, Hr; [reflexivity |].
    destruct Hkind as [Hnone | Hfull]; [left | right; exact Hfull].
    unfold fetch_session_ctx.is_sessionless. rewrite Hnone. reflexivity.
  - rewrite (visited_session c s Hs Hf). exact Hp.
Qed.

Example session_idle_is_empty : is_empty_request Samples.session_idle = true.
Proof. reflexivity. Qed.

Example session_backed_is_not_empty :
  is_empty_request Samples.session_backed = false.
Proof. reflexivity. Qed.

(** A session-backed request with nothing stored is not an empty request
    as long as the request itself lists a partition. *)
Example nothing_stored_but_listed :
  let c := Samples.ctx (Samples.req 500 1000 Samples.topics_ab) (Some 500) 0
             false (Samples.incremental []) in
  visited c = [] /\ is_empty_request c = false.
Proof. split; reflexivity. Qed.

(** C6: [is_empty_request] returns true exactly for the empty requests of
    the specification (a sessionless or full-fetch request listing no
    partition; a session-backed request with nothing stored and nothing
    listed); the traversal then visits no partition and
    [should_stop_fetch] returns true at every time. *)
Theorem empty_request_stops (c : op_context) :
  (is_empty_request c = true <-> spec_empty_request c)
  /\ (spec_empty_request c ->
      visited c = [] /\ forall now, should_stop_fetch c now = true).
Proof.
  split; [apply is_empty_request_spec |].
  intros Hspec. apply is_empty_request_spec in Hspec.
  split; [apply empty_request_visits_nothing; exact Hspec |].
  intros now. apply should_stop_fetch_cases. tauto.
Qed.

Lemma empty_request_stops_witness :
  over_min_bytes Samples.session_idle = false
  /\ visited Samples.session_idle = []
  /\ should_stop_fetch Samples.session_idle 0 = true.
Proof.
  assert (Hspec : spec_empty_request Samples.session_idle).
  { right. exists (fetch_session.mk 7 3 []). repeat split. }
  split; [reflexivity |].
  destruct (proj2 (empty_request_stops Samples.session_idle) Hspec)
    as [Hnone Hstop].
  split; [exact Hnone | exact (Hstop 0)].
Defined.

(** ** Read results *)

Lemma constructed_error_or_no_data (default_offset default_partition : Z)
    (r : read_result.t) :
  read_result.constructed default_offset default_partition r ->
  read_result.error r = none \/ read_result.has_data r = Some false.
Proof.
  intros Hr. destruct Hr as [e | d start hw lso aborted | start hw lso].
  - right. reflexivity.
  - left. reflexivity.
  - left. reflexivity.
Qed.

(** C8: a read result built from an error code carries that code and has
    no data; one built from a payload and offsets, or from offsets alone,
    carries the code [none]; so no constructed read result has both an
    error and data. *)
Theorem read_result_error_or_data (default_offset default_partition : Z) :
  (forall e,
      read_result.error
        (read_result.of_error default_offset default_partition e) = e
      /\ read_result.has_data
           (read_result.of_error default_offset default_partition e)
         = Some false)
  /\ (forall d start hw lso aborted,
        read_result.error
          (read_result.of_data default_partition d start hw lso aborted)
        = none)
  /\ (forall start hw lso,
        read_result.error
          (read_result.of_offsets default_partition start hw lso) = none)
  /\ (forall r,
        read_result.constructed default_offset default_partition r ->
        read_result.has_data r = Some true ->
        read_result.error r = none).
Proof.
  repeat split.
  intros r Hr Hdata.
  destruct (constructed_error_or_no_data _ _ r Hr) as [H | H];
    [exact H | congruence].
Qed.

Example has_data_of_payload :
  read_result.has_data
    (read_result.of_data 0 (read_result.data_t (Some [Byte.x01])) 5 9 9 [])
  = Some true.
Proof. reflexivity. Qed.

Example has_data_of_empty_foreign_buffer :
  read_result.has_data
    (read_result.of_data 0 (read_result.foreign_data_t (Some [])) 5 9 9 [])
  = Some false.
Proof. reflexivity. Qed.

Lemma read_result_error_or_data_witness :
  read_result.error
    (read_result.of_data 0 (read_result.data_t (Some [Byte.x01])) 5 9 9 [])
  = none.
Proof.
  apply (proj2 (proj2 (proj2 (read_result_error_or_data 0 0)))).
  - apply read_result.constructed_of_data.
  - reflexivity.
Defined.

(** ** Per-shard plans *)

Lemma push_back_sizes (config : ntp_fetch_config.t) (it : response_iterator)
    (sf : shard_fetch.t) :
  List.length (shard_fetch.requests (shard_fetch.push_back config it sf))
  = S (List.length (shard_fetch.requests sf))
  /\ List.length (shard_fetch.responses (shard_fetch.push_back config it sf))
     = S (List.length (shard_fetch.responses sf)).
Proof.
  cbn. rewrite !length_app. cbn. split; apply Nat.add_1_r.
Qed.

(** Every run of [push_back] calls from the empty state is a [built] one. *)
Lemma push_back_all_built (calls : list (ntp_fetch_config.t * response_iterator)) :
  shard_fetch.built
    (fold_left (fun sf call => shard_fetch.push_back (fst call) (snd call) sf)
       calls shard_fetch.init).
Proof.
  assert (Hgen : forall sf, shard_fetch.built sf ->
            shard_fetch.built
              (fold_left
                 (fun sf call => shard_fetch.push_back (fst call) (snd call) sf)
                 calls sf)).
  { induction calls as [| call calls IH]; intros sf Hsf; cbn.
    - exact Hsf.
    - apply IH. constructor. exact Hsf. }
  apply Hgen. constructor.
Qed.

(** C10: in every [shard_fetch] built from the empty one by calls of
    [push_back] the two vectors have the same length, so the assertion of
    [empty] holds and [empty] returns whether there are no requests. *)
Theorem shard_fetch_sizes_agree (sf : shard_fetch.t) :
  shard_fetch.built sf ->
  List.length (shard_fetch.requests sf) = List.length (shard_fetch.responses sf)
  /\ shard_fetch.empty sf
     = Some (match shard_fetch.requests sf with [] => true | _ :: _ => false end).
Proof.
  intros Hbuilt.
  assert (Hlen : List.length (shard_fetch.requests sf)
                 = List.length (shard_fetch.responses sf)).
  { induction Hbuilt as [| config it sf Hsf IH].
    - reflexivity.
    - destruct (push_back_sizes config it sf) as [-> ->]. f_equal. exact IH. }
  split; [exact Hlen |].
  unfold shard_fetch.empty. rewrite Hlen, Nat.eqb_refl. reflexivity.
Qed.

Lemma shard_fetch_sizes_agree_witness :
  List.length (shard_fetch.requests Samples.two_fetches)
  = List.length (shard_fetch.responses Samples.two_fetches)
  /\ shard_fetch.empty Samples.two_fetches = Some false.
Proof.
  apply (shard_fetch_sizes_agree Samples.two_fetches).
  unfold Samples.two_fetches. repeat constructor.
Defined.

Example empty_of_unequal_sizes :
  shard_fetch.empty (shard_fetch.mk [Samples.cfg "A" 0] []) = None.
Proof. reflexivity. Qed.

(** ** Further properties of the fetch header *)

(** X1: whenever [has_data] returns true, [get_data] and [release_data]
    are defined and yield the same bytes, and for a foreign buffer these
    bytes are not empty. *)
Theorem has_data_guards_get_data (r : read_result.t) :
  read_result.has_data r = Some true ->
  exists b,
    read_result.get_data r = Some b
    /\ read_result.release_data r = Some b
    /\ (forall d, read_result.data r = read_result.foreign_data_t d -> b <> []).
Proof.
  unfold read_result.has_data, read_result.get_data, read_result.release_data.
  destruct (read_result.data r) as [[b |] | [b |]]; cbn; intros H;
    try discriminate.
  - exists b. repeat split. intros d [=].
  - exists b. repeat split. intros d _ ->. discriminate.
Qed.

Lemma has_data_guards_get_data_witness :
  exists b,
    read_result.get_data
      (read_result.of_data 0 (read_result.foreign_data_t (Some [Byte.x01]))
         5 9 9 []) = Some b
    /\ read_result.release_data
         (read_result.of_data 0 (read_result.foreign_data_t (Some [Byte.x01]))
            5 9 9 []) = Some b
    /\ (forall d,
          read_result.data
            (read_result.of_data 0
               (read_result.foreign_data_t (Some [Byte.x01])) 5 9 9 [])
          = read_result.foreign_data_t d -> b <> []).
Proof.
  apply (has_data_guards_get_data
           (read_result.of_data 0
              (read_result.foreign_data_t (Some [Byte.x01])) 5 9 9 [])).
  reflexivity.
Defined.

(** *** Per-shard plans *)

Lemma built_sizes (sf : shard_fetch.t) :
  shard_fetch.built sf ->
  List.length (shard_fetch.requests sf) = List.length (shard_fetch.responses sf).
Proof.
  induction 1 as [| config it sf Hsf IH]; [reflexivity |].
  destruct (push_back_sizes config it sf) as [-> ->]. f_equal. exact IH.
Qed.

Lemma equal_sizes_built (rs : list ntp_fetch_config.t) :
  forall its : list response_iterator,
    List.length rs = List.length its ->
    shard_fetch.built (shard_fetch.mk rs its).
Proof.
  induction rs as [| r rs IH] using rev_ind; intros its Hlen.
  - destruct its; [constructor | discriminate].
  - destruct its as [| it its _] using rev_ind.
    + rewrite length_app in Hlen. cbn in Hlen. lia.
    + rewrite !length_app in Hlen. cbn in Hlen.
      apply (shard_fetch.built_push_back r it (shard_fetch.mk rs its)).
      apply IH. lia.
Qed.

Lemma empty_defined_iff (sf : shard_fetch.t) :
  shard_fetch.empty sf <> None <->
  List.length (shard_fetch.requests sf) = List.length (shard_fetch.responses sf).
Proof.
  unfold shard_fetch.empty.
  destruct (Nat.eqb_spec (List.length (shard_fetch.requests sf))
              (List.length (shard_fetch.responses sf))) as [Heq | Hne].
  - split; [intros _; exact Heq | discriminate].
  - split; [intros H; exfalso; apply H; reflexivity | intros H; contradiction].
Qed.

(** X2: the assertion of [shard_fetch::empty] holds exactly on the states
    that calls of [push_back] reach from the empty one. *)
Theorem empty_asserts_iff_built (sf : shard_fetch.t) :
  shard_fetch.empty sf <> None <-> shard_fetch.built sf.
Proof.
  rewrite empty_defined_iff. split.
  - destruct sf as [rs its]. apply equal_sizes_built.
  - apply built_sizes.
Qed.

Lemma push_back_all_fields
    (calls : list (ntp_fetch_config.t * response_iterator)) (sf : shard_fetch.t) :
  fold_left (fun sf call => shard_fetch.push_back (fst call) (snd call) sf)
    calls sf
  = shard_fetch.mk (shard_fetch.requests sf ++ map fst calls)
      (shard_fetch.responses sf ++ map snd calls).
Proof.
  revert sf. induction calls as [| call calls IH]; intros sf; cbn.
  - rewrite !app_nil_r. destruct sf; reflexivity.
  - rewrite IH. cbn. rewrite <- !app_assoc. reflexivity.
Qed.

(** X3: after any run of [push_back] calls on an empty [shard_fetch], the
    request and the response iterator at one index are those of one call,
    and the calls are kept in their order. *)
Theorem push_back_keeps_pairs
    (calls : list (ntp_fetch_config.t * response_iterator)) :
  let sf := fold_left
              (fun sf call => shard_fetch.push_back (fst call) (snd call) sf)
              calls shard_fetch.init in
  combine (shard_fetch.requests sf) (shard_fetch.responses sf) = calls.
Proof.
  cbv zeta. rewrite push_back_all_fields. cbn.
  induction calls as [| [config it] calls IH]; cbn; [reflexivity |].
  f_equal. exact IH.
Qed.

(** X4: among the states built by [push_back], [empty] returns true for
    the initial one only: it returns false after every [push_back]. *)
Theorem empty_only_initially (sf : shard_fetch.t) :
  shard_fetch.built sf ->
  (shard_fetch.empty sf = Some true <-> sf = shard_fetch.init)
  /\ (forall config it,
        shard_fetch.empty (shard_fetch.push_back config it sf) = Some false).
Proof.
  intros Hbuilt. pose proof (built_sizes sf Hbuilt) as Hlen. split.
  - split.
    + unfold shard_fetch.empty. rewrite Hlen, Nat.eqb_refl.
      destruct sf as [[| r rs] [| it its]]; cbn in *;
        try discriminate; reflexivity.
    + intros ->. reflexivity.
  - intros config it. unfold shard_fetch.empty.
    destruct (push_back_sizes config it sf) as [-> ->].
    rewrite Hlen, Nat.eqb_refl. cbn.
    destruct (shard_fetch.requests sf); reflexivity.
Qed.

Lemma empty_only_initially_witness :
  shard_fetch.empty
    (shard_fetch.push_back (Samples.cfg "A" 1) (mk_response_iterator 1)
       Samples.two_fetches) = Some false.
Proof.
  apply (proj2 (empty_only_initially Samples.two_fetches
                  (shard_fetch.built_push_back _ _ _
                     (shard_fetch.built_push_back _ _ _
                        shard_fetch.built_init)))).
Defined.

(** *** The operation context *)

(** X5: no operation waits for ever: from some time on (the deadline, when
    one is set) [should_stop_fetch] returns true. *)
Theorem should_stop_fetch_eventually (c : op_context) :
  exists t : time_point,
    (forall d, deadline c = Some d -> t = d)
    /\ forall now, t <= now -> should_stop_fetch c now = true.
Proof.
  destruct (deadline c) as [d |] eqn:Hd.
  - exists d. split; [intros d' [= <-]; reflexivity |].
    intros now Hle. apply should_stop_fetch_cases. do 4 right.
    rewrite Hd. cbn. apply Z.leb_le. exact Hle.
  - exists 0. split; [intros d' [=] |].
    intros now _. apply should_stop_fetch_cases. do 4 right.
    rewrite Hd. reflexivity.
Qed.

(** X6: reading more bytes does not restart the wait as long as the
    response stays below [2^31] bytes: if [should_stop_fetch] holds with
    [size] bytes read, it holds with any larger [size'] below [2^31]. *)
Theorem should_stop_fetch_grows
    (r : fetch_request.t) (left : Z) (d : option time_point) (size size' : Z)
    (err first : bool) (sc : fetch_session_ctx.t) (now : time_point) :
  0 <= size <= size' ->
  size' < 2 ^ 31 ->
  should_stop_fetch (mk_op_context r left d size err first sc) now = true ->
  should_stop_fetch (mk_op_context r left d size' err first sc) now = true.
Proof.
  intros Hle Hlt Hstop.
  apply should_stop_fetch_cases in Hstop. apply should_stop_fetch_cases.
  destruct Hstop as [H | [H | [H | [H | H]]]]; try tauto.
  right; left.
  unfold over_min_bytes in *. cbn [response_size request] in *.
  rewrite static_cast_int32_small in * by lia.
  apply Z.geb_le. apply Z.geb_le in H. lia.
Qed.

Lemma should_stop_fetch_grows_witness :
  should_stop_fetch
    (mk_op_context (Samples.req 500 1000 Samples.topics_ab) 52428800
       (Some 500) 4096 false true Samples.sessionless) 0 = true.
Proof.
  apply (should_stop_fetch_grows (Samples.req 500 1000 Samples.topics_ab)
           52428800 (Some 500) 1200 4096 false true Samples.sessionless 0).
  - lia.
  - lia.
  - reflexivity.
Defined.

(** X7: past [2^31] bytes the cast wraps: adding [2^32] bytes to the
    response leaves [over_min_bytes] as it is, and a response of [2^31]
    up to [2^32 - 1] bytes is over the minimum only when [min_bytes] is at
    most its size minus [2^32]. *)
Theorem over_min_bytes_wraps
    (r : fetch_request.t) (left : Z) (d : option time_point) (size : Z)
    (err first : bool) (sc : fetch_session_ctx.t) :
  over_min_bytes (mk_op_context r left d (size + 2 ^ 32) err first sc)
  = over_min_bytes (mk_op_context r left d size err first sc)
  /\ (2 ^ 31 <= size < 2 ^ 32 ->
      (over_min_bytes (mk_op_context r left d size err first sc) = true <->
       fetch_request_data.min_bytes (fetch_request.data r) <= size - 2 ^ 32)).
Proof.
  split.
  - unfold over_min_bytes. cbn [response_size request].
    rewrite !static_cast_int32_mod.
    replace (size + 2 ^ 32) with (size + 1 * 2 ^ 32) by lia.
    rewrite Z.mod_add by lia. reflexivity.
  - intros Hsize. rewrite over_min_bytes_characterisation.
    cbn [response_size request].
    rewrite Z.mod_small by lia. unfold Int.reinterpret_signed32.
    destruct (Z.ltb_spec size (2 ^ 31)); [lia | reflexivity].
Qed.

Lemma over_min_bytes_wraps_witness :
  over_min_bytes
    (mk_op_context (Samples.req 500 (- 5) Samples.topics_ab) 52428800
       (Some 500) (2 ^ 32 - 5) false true Samples.sessionless) = true.
Proof.
  apply (proj2 (over_min_bytes_wraps (Samples.req 500 (- 5) Samples.topics_ab)
                  52428800 (Some 500) (2 ^ 32 - 5) false true
                  Samples.sessionless)).
  - lia.
  - cbn. lia.
Defined.

Lemma map_requested_nil (l : list fetch_request.value_type) :
  map requested l = [] <-> l = [].
Proof.
  destruct l; cbn; split; congruence.
Qed.

(** X8: [is_empty_request] agrees with the traversal: for a sessionless
    or full-fetch context it returns true exactly when
    [for_each_fetch_partition] visits nothing; for an incremental context
    with a session, exactly when the traversal visits nothing and the
    request lists no partition either. *)
Theorem is_empty_request_by_visited (c : op_context) :
  (fetch_session_ctx.is_sessionless (session_ctx c) = true
   \/ fetch_session_ctx.is_full_fetch (session_ctx c) = true ->
   (is_empty_request c = true <-> visited c = []))
  /\ (forall sess,
        fetch_session_ctx.session (session_ctx c) = Some sess ->
        fetch_session_ctx.is_full_fetch (session_ctx c) = false ->
        (is_empty_request c = true <->
         visited c = [] /\ fetch_request.range (request c) = [])).
Proof.
  split.
  - intros Hkind. rewrite (visited_request c Hkind), map_requested_nil.
    unfold is_empty_request.
    replace (fetch_session_ctx.is_sessionless (session_ctx c)
             || fetch_session_ctx.is_full_fetch (session_ctx c)) with true
      by (symmetry; apply orb_true_iff; exact Hkind).
    apply request_empty_spec.
  - intros sess Hsess Hfull. rewrite (visited_session c sess Hsess Hfull).
    unfold is_empty_request, fetch_session_ctx.is_sessionless.
    rewrite Hsess, Hfull. cbn.
    rewrite andb_true_iff, session_empty_spec, request_empty_spec.
    reflexivity.
Qed.

Lemma is_empty_request_by_visited_witness :
  (is_empty_request Samples.satisfied = true <-> visited Samples.satisfied = [])
  /\ (is_empty_request Samples.session_idle = true <->
      visited Samples.session_idle = []
      /\ fetch_request.range (request Samples.session_idle) = []).
Proof.
  split.
  - apply (proj1 (is_empty_request_by_visited Samples.satisfied)).
    left. reflexivity.
  - apply (proj2 (is_empty_request_by_visited Samples.session_idle)
             (fetch_session.mk 7 3 [])); reflexivity.
Defined.

(** ** The transform service *)

Lemma errc_eqb_eq (a b : transform.errc) :
  transform.errc_eqb a b = true <-> a = b.
Proof.
  destruct a, b; cbn; split; try congruence; try discriminate.
  - intros H. apply Nat.eqb_eq in H. congruence.
  - intros [= ->]. apply Nat.eqb_refl.
Qed.

Lemma errc_eqb_neq (a b : transform.errc) :
  transform.errc_eqb a b = false <-> a <> b.
Proof.
  rewrite <- errc_eqb_eq. destruct (transform.errc_eqb a b); split;
    congruence.
Qed.

Lemma cleanup_wasm_binary_run (e : transform.env) (key : transform.uuid_t) :
  transform.cleanup_wasm_binary e key
  = ([transform.delete_wasm_binary_call key transform.wasm_binary_timeout],
     transform.returned tt).
Proof.
  unfold transform.cleanup_wasm_binary, transform.bind, transform.as_future,
    transform.co_await.
  cbn [fst snd].
  destruct (transform.delete_wasm_binary e key transform.wasm_binary_timeout)
    as [err | ex]; cbn; [| reflexivity].
  destruct (transform.errc_eqb err transform.success); reflexivity.
Qed.

(** X9: [cleanup_wasm_binary] is best effort: it asks once for the
    deletion of the binary and completes normally, whether that call
    succeeds, reports an error or throws. *)
Theorem cleanup_wasm_binary_never_fails (e : transform.env)
    (key : transform.uuid_t) :
  transform.calls (transform.cleanup_wasm_binary e key)
  = [transform.delete_wasm_binary_call key transform.wasm_binary_timeout]
  /\ transform.result (transform.cleanup_wasm_binary e key)
     = transform.returned tt.
Proof.
  rewrite cleanup_wasm_binary_run. split; reflexivity.
Qed.

Ltac run_task :=
  unfold transform.delete_transform, transform.deploy_transform,
    transform.hold, transform.calls, transform.result;
  repeat
    (rewrite ?cleanup_wasm_binary_run;
     cbn [transform.bind transform.co_await transform.co_return
          transform.throw fst snd app negb];
     match goal with
     | |- context [transform.wasm_transforms_active ?e] =>
         destruct (transform.wasm_transforms_active e) eqn:?
     | |- context [transform.gate_closed ?e] =>
         destruct (transform.gate_closed e) eqn:?
     | |- context [transform.remove_transform ?e ?n ?t] =>
         destruct (transform.remove_transform e n t) as [[? ?] | ?] eqn:?
     | |- context [transform.store_wasm_binary ?e ?b ?t] =>
         destruct (transform.store_wasm_binary e b t) as [[[? ?] | ?] | ?] eqn:?
     | |- context [transform.upsert_transform ?e ?m ?t] =>
         destruct (transform.upsert_transform e m t) as [? | ?] eqn:?
     | |- context [transform.errc_eqb ?a ?b] =>
         destruct (transform.errc_eqb a b) eqn:?
     end);
  cbn [transform.bind transform.co_await transform.co_return
       transform.throw fst snd app negb transform.ec transform.removed_uuid
       transform.name] in *.

Example delete_existing_transform :
  transform.delete_transform transform.sample_env "tee"
  = ([transform.remove_transform_call "tee" 101;
      transform.delete_wasm_binary_call 11 3],
     transform.returned transform.success).
Proof. reflexivity. Qed.

Example delete_unknown_transform :
  transform.delete_transform transform.sample_env "cut"
  = ([transform.remove_transform_call "cut" 101],
     transform.returned transform.success).
Proof. reflexivity. Qed.

Example deploy_with_failing_update :
  transform.deploy_transform transform.sample_env
    (transform.mk_transform_metadata "tee" 0 0) [Byte.x00]
  = ([transform.store_wasm_binary_call [Byte.x00] 3;
      transform.upsert_transform_call
        (transform.mk_transform_metadata "tee" 42 8) 101;
      transform.delete_wasm_binary_call 42 3],
     transform.returned (transform.errc_other 9)).
Proof. reflexivity. Qed.

(** X10: the removal of a transform is idempotent: [delete_transform]
    never returns [transform_does_not_exist]; when the plugin frontend
    reports it, the operation returns [success] and deletes no binary. *)
Theorem delete_transform_idempotent (e : transform.env) (name : string) :
  transform.result (transform.delete_transform e name)
  <> transform.returned transform.transform_does_not_exist
  /\ (forall u,
        transform.wasm_transforms_active e = true ->
        transform.gate_closed e = false ->
        transform.remove_transform e name
          (transform.now e + transform.metadata_timeout)
        = transform.returned
            (transform.mk_mutation_result transform.transform_does_not_exist u) ->
        transform.delete_transform e name
        = ([transform.remove_transform_call name
              (transform.now e + transform.metadata_timeout)],
           transform.returned transform.success)).
Proof.
  split.
  - run_task; cbn in *; try discriminate.
    intros [= ->]. cbn in *. discriminate.
  - intros u Hactive Hgate Hremove.
    unfold transform.delete_transform, transform.hold.
    rewrite Hactive, Hgate. cbn. rewrite Hremove. reflexivity.
Qed.

Lemma delete_transform_idempotent_witness :
  transform.delete_transform transform.sample_env "cut"
  = ([transform.remove_transform_call "cut" 101],
     transform.returned transform.success).
Proof.
  apply (proj2 (delete_transform_idempotent transform.sample_env "cut") 0);
    reflexivity.
Defined.

(** X11: with the feature switched off, neither operation touches a
    collaborator, not even the gate: both return [feature_disabled] at
    once. *)
Theorem feature_disabled_does_nothing (e : transform.env) (name : string)
    (meta : transform.transform_metadata) (binary : iobuf) :
  transform.wasm_transforms_active e = false ->
  transform.delete_transform e name
  = ([], transform.returned transform.feature_disabled)
  /\ transform.deploy_transform e meta binary
     = ([], transform.returned transform.feature_disabled).
Proof.
  intros Hoff.
  unfold transform.delete_transform, transform.deploy_transform.
  rewrite Hoff. split; reflexivity.
Qed.

Lemma feature_disabled_does_nothing_witness :
  transform.delete_transform
    (transform.mk_env false true 0
       (fun _ _ => transform.threw (transform.other_exception 0))
       (fun _ _ => transform.threw (transform.other_exception 0))
       (fun _ _ => transform.threw (transform.other_exception 0))
       (fun _ _ => transform.threw (transform.other_exception 0))) "tee"
  = ([], transform.returned transform.feature_disabled)
  /\ transform.deploy_transform
       (transform.mk_env false true 0
          (fun _ _ => transform.threw (transform.other_exception 0))
          (fun _ _ => transform.threw (transform.other_exception 0))
          (fun _ _ => transform.threw (transform.other_exception 0))
          (fun _ _ => transform.threw (transform.other_exception 0)))
       (transform.mk_transform_metadata "tee" 0 0) []
     = ([], transform.returned transform.feature_disabled).
Proof.
  apply (feature_disabled_does_nothing
           (transform.mk_env false true 0
              (fun _ _ => transform.threw (transform.other_exception 0))
              (fun _ _ => transform.threw (transform.other_exception 0))
              (fun _ _ => transform.threw (transform.other_exception 0))
              (fun _ _ => transform.threw (transform.other_exception 0)))).
  reflexivity.
Defined.

(** X12: [delete_transform] asks for the deletion of a binary only after
    the plugin frontend has removed the transform with [success], and then
    for the binary of the removed transform; the operation then returns
    [success] whatever becomes of that deletion. *)
Theorem delete_transform_cleans_up (e : transform.env) (name : string)
    (key : transform.uuid_t) (timeout : Z) :
  In (transform.delete_wasm_binary_call key timeout)
     (transform.calls (transform.delete_transform e name)) ->
  transform.remove_transform e name
    (transform.now e + transform.metadata_timeout)
  = transform.returned (transform.mk_mutation_result transform.success key)
  /\ transform.delete_transform e name
     = ([transform.remove_transform_call name
           (transform.now e + transform.metadata_timeout);
         transform.delete_wasm_binary_call key transform.wasm_binary_timeout],
        transform.returned transform.success).
Proof.
  run_task; cbn [In]; intros Hin;
    repeat match goal with
           | H : _ \/ _ |- _ => destruct H
           | H : False |- _ => destruct H
           | H : transform.remove_transform_call _ _ = _ |- _ => discriminate H
           end.
  match goal with
  | H : transform.delete_wasm_binary_call _ _ = _ |- _ =>
      injection H as -> _
  end.
  match goal with
  | H : transform.errc_eqb _ transform.success = true |- _ =>
      apply errc_eqb_eq in H; subst
  end.
  split; reflexivity.
Qed.

Lemma delete_transform_cleans_up_witness :
  transform.remove_transform transform.sample_env "tee" 101
  = transform.returned (transform.mk_mutation_result transform.success 11)
  /\ transform.delete_transform transform.sample_env "tee"
     = ([transform.remove_transform_call "tee" 101;
         transform.delete_wasm_binary_call 11 3],
        transform.returned transform.success).
Proof.
  apply (delete_transform_cleans_up transform.sample_env "tee" 11 3).
  right; left; reflexivity.
Defined.

Ltac settle_calls :=
  cbn [In]; intros;
  repeat match goal with
         | H : _ \/ _ |- _ => destruct H
         | H : False |- _ => destruct H
         | H : transform.store_wasm_binary_call _ _ = _ |- _ => discriminate H
         | H : transform.upsert_transform_call _ _ = _ |- _ =>
             first [discriminate H | injection H as <- <-]
         | H : transform.delete_wasm_binary_call _ _ = _ |- _ =>
             first [discriminate H | injection H as <- <-]
         | H : transform.returned _ = transform.returned _ |- _ =>
             injection H as ->
         | H : transform.threw _ = transform.returned _ |- _ => discriminate H
         | H : transform.errc_eqb _ _ = true |- _ => apply errc_eqb_eq in H
         | H : transform.errc_eqb _ _ = false |- _ => apply errc_eqb_neq in H
         end.

(** X13: [deploy_transform] updates the metadata only after the binary
    has been stored, and the metadata it sends carries the key and the
    offset of the stored binary under the name it was given. *)
Theorem deploy_transform_stores_first (e : transform.env)
    (meta sent : transform.transform_metadata) (binary : iobuf) (timeout : Z) :
  In (transform.upsert_transform_call sent timeout)
     (transform.calls (transform.deploy_transform e meta binary)) ->
  exists key offset,
    transform.store_wasm_binary e binary transform.wasm_binary_timeout
    = transform.returned (inl (key, offset))
    /\ sent = transform.mk_transform_metadata (transform.name meta) key offset
    /\ hd_error (transform.calls (transform.deploy_transform e meta binary))
       = Some (transform.store_wasm_binary_call binary
                 transform.wasm_binary_timeout).
Proof.
  run_task; settle_calls; eauto.
Qed.

Lemma deploy_transform_stores_first_witness :
  exists key offset,
    transform.store_wasm_binary transform.sample_env [Byte.x00] 3
    = transform.returned (inl (key, offset))
    /\ transform.mk_transform_metadata "tee" 42 8
       = transform.mk_transform_metadata "tee" key offset
    /\ hd_error
         (transform.calls
            (transform.deploy_transform transform.sample_env
               (transform.mk_transform_metadata "tee" 0 0) [Byte.x00]))
       = Some (transform.store_wasm_binary_call [Byte.x00] 3).
Proof.
  apply (deploy_transform_stores_first transform.sample_env
           (transform.mk_transform_metadata "tee" 0 0)
           (transform.mk_transform_metadata "tee" 42 8) [Byte.x00] 101).
  right; left; reflexivity.
Defined.

(** X14: [deploy_transform] deletes a binary only to undo its own store:
    the binary it deletes is the one it has just stored, the update of the
    metadata has returned an error, and that error is the result of the
    operation whatever becomes of the deletion. *)
Theorem deploy_transform_rolls_back (e : transform.env)
    (meta : transform.transform_metadata) (binary : iobuf)
    (key : transform.uuid_t) (timeout : Z) :
  In (transform.delete_wasm_binary_call key timeout)
     (transform.calls (transform.deploy_transform e meta binary)) ->
  exists offset err,
    transform.store_wasm_binary e binary transform.wasm_binary_timeout
    = transform.returned (inl (key, offset))
    /\ transform.upsert_transform e
         (transform.mk_transform_metadata (transform.name meta) key offset)
         (transform.now e + transform.metadata_timeout)
       = transform.returned err
    /\ err <> transform.success
    /\ transform.deploy_transform e meta binary
       = ([transform.store_wasm_binary_call binary transform.wasm_binary_timeout;
           transform.upsert_transform_call
             (transform.mk_transform_metadata (transform.name meta) key offset)
             (transform.now e + transform.metadata_timeout);
           transform.delete_wasm_binary_call key transform.wasm_binary_timeout],
          transform.returned err).
Proof.
  run_task; settle_calls; eauto 10.
Qed.

Lemma deploy_transform_rolls_back_witness :
  exists offset err,
    transform.store_wasm_binary transform.sample_env [Byte.x00] 3
    = transform.returned (inl (42, offset))
    /\ transform.upsert_transform transform.sample_env
         (transform.mk_transform_metadata "tee" 42 offset) 101
       = transform.returned err
    /\ err <> transform.success
    /\ transform.deploy_transform transform.sample_env
         (transform.mk_transform_metadata "tee" 0 0) [Byte.x00]
       = ([transform.store_wasm_binary_call [Byte.x00] 3;
           transform.upsert_transform_call
             (transform.mk_transform_metadata "tee" 42 offset) 101;
           transform.delete_wasm_binary_call 42 3],
          transform.returned err).
Proof.
  apply (deploy_transform_rolls_back transform.sample_env
           (transform.mk_transform_metadata "tee" 0 0) [Byte.x00] 42 3).
  right; right; left; reflexivity.
Defined.

(** X15: when [deploy_transform] returns [success], either the store of
    the binary has itself failed with the code [success] and nothing else
    was done, or the binary was stored, the update of the metadata
    returned [success], and no binary was deleted. *)
Theorem deploy_transform_success (e : transform.env)
    (meta : transform.transform_metadata) (binary : iobuf) :
  transform.result (transform.deploy_transform e meta binary)
  = transform.returned transform.success ->
  (transform.store_wasm_binary e binary transform.wasm_binary_timeout
   = transform.returned (inr transform.success)
   /\ transform.calls (transform.deploy_transform e meta binary)
      = [transform.store_wasm_binary_call binary transform.wasm_binary_timeout])
  \/ (exists key offset,
        transform.store_wasm_binary e binary transform.wasm_binary_timeout
        = transform.returned (inl (key, offset))
        /\ transform.upsert_transform e
             (transform.mk_transform_metadata (transform.name meta) key offset)
             (transform.now e + transform.metadata_timeout)
           = transform.returned transform.success
        /\ transform.calls (transform.deploy_transform e meta binary)
           = [transform.store_wasm_binary_call binary
                transform.wasm_binary_timeout;
              transform.upsert_transform_call
                (transform.mk_transform_metadata (transform.name meta)
                   key offset)
                (transform.now e + transform.metadata_timeout)]).
Proof.
  run_task; intros Hres; try discriminate Hres; settle_calls;
    try congruence; eauto 10.
Qed.

(** ** The admin server: replica sets *)

Lemma existsb_node_id (node : Z) (replicas : list admin.broker_shard) :
  existsb (fun bs => admin.node_id bs =? node) replicas = true
  <-> In node (map admin.node_id replicas).
Proof.
  rewrite existsb_exists, in_map_iff. split.
  - intros (bs & Hin & Heq). apply Z.eqb_eq in Heq. eauto.
  - intros (bs & Heq & Hin). exists bs. rewrite Z.eqb_eq. auto.
Qed.

Lemma requested_replica_inv (r : admin.json) (bs : admin.broker_shard) :
  admin.requested_replica r = Some bs ->
  exists node core,
    admin.member r "node_id" = Some (admin.j_int node)
    /\ admin.member r "core" = Some (admin.j_int core)
    /\ admin.IsInt (admin.j_int node) = true
    /\ admin.IsInt (admin.j_int core) = true
    /\ bs = admin.mk_broker_shard node (admin.static_cast_uint32 core).
Proof.
  unfold admin.requested_replica.
  destruct (admin.member r "node_id") as [[| | node | | | |] |];
    try discriminate.
  destruct (admin.member r "core") as [[| | core | | | |] |];
    try discriminate.
  destruct (admin.IsInt (admin.j_int node)) eqn:Hn; try discriminate.
  destruct (admin.IsInt (admin.j_int core)) eqn:Hc; try discriminate.
  cbn. intros [= <-]. eauto 10.
Qed.

Lemma collect_step (validate_shard : Z -> Z -> bool) (r : admin.json)
    (rest : list admin.json) (acc : list admin.broker_shard)
    (node core : Z) :
  admin.member r "node_id" = Some (admin.j_int node) ->
  admin.member r "core" = Some (admin.j_int core) ->
  admin.IsInt (admin.j_int node) = true ->
  admin.IsInt (admin.j_int core) = true ->
  admin.collect validate_shard (r :: rest) acc
  = if negb (validate_shard node (admin.static_cast_uint32 core))
    then admin.bad_request_exception
           (admin.non_existent_node_shard node (admin.static_cast_uint32 core))
    else if existsb (fun bs => admin.node_id bs =? node) acc
    then admin.bad_request_exception (admin.node_more_than_once node)
    else admin.collect validate_shard rest
           (acc ++ [admin.mk_broker_shard node (admin.static_cast_uint32 core)]).
Proof.
  intros Hn Hc Hin Hic. cbn [admin.collect].
  rewrite Hn, Hc, Hin, Hic. reflexivity.
Qed.

Lemma collect_ok_inv (validate_shard : Z -> Z -> bool) (r : admin.json)
    (rest : list admin.json) (acc rs : list admin.broker_shard) :
  admin.collect validate_shard (r :: rest) acc = admin.ok rs ->
  exists bs,
    admin.requested_replica r = Some bs
    /\ validate_shard (admin.node_id bs) (admin.shard bs) = true
    /\ ~ In (admin.node_id bs) (map admin.node_id acc)
    /\ admin.collect validate_shard rest (acc ++ [bs]) = admin.ok rs.
Proof.
  cbn [admin.collect]. unfold admin.requested_replica.
  destruct (admin.member r "node_id") as [a |]; [| discriminate].
  destruct (admin.member r "core") as [b |]; [| discriminate].
  destruct (admin.IsInt a) eqn:Ha; [| discriminate].
  destruct (admin.IsInt b) eqn:Hb; [| discriminate].
  cbn [negb orb].
  destruct a as [| | node | | | |]; try discriminate.
  destruct b as [| | core | | | |]; try discriminate.
  rewrite Ha, Hb. cbn [andb].
  destruct (validate_shard node (admin.static_cast_uint32 core)) eqn:Hv;
    [| discriminate].
  cbn [negb].
  destruct (existsb (fun bs => admin.node_id bs =? node) acc) eqn:Hex;
    [discriminate |].
  intros Hrest. eexists. repeat split; [exact Hv | | exact Hrest].
  cbn. rewrite <- existsb_node_id, Hex. discriminate.
Qed.

Lemma collect_ok_iff (validate_shard : Z -> Z -> bool)
    (items : list admin.json) :
  forall acc rs : list admin.broker_shard,
    admin.collect validate_shard items acc = admin.ok rs <->
    exists new,
      rs = acc ++ new
      /\ map admin.requested_replica items = map Some new
      /\ Forall (fun bs => validate_shard (admin.node_id bs) (admin.shard bs)
                           = true) new
      /\ NoDup (map admin.node_id new)
      /\ (forall n, In n (map admin.node_id new) ->
                    ~ In n (map admin.node_id acc)).
Proof.
  induction items as [| r rest IH]; intros acc rs.
  - cbn. split.
    + intros [= <-]. exists []. rewrite app_nil_r.
      repeat split; try constructor. intros n [].
    + intros (new & -> & Hmap & _). destruct new; [| discriminate].
      rewrite app_nil_r. reflexivity.
  - split.
    + intros Hok.
      destruct (collect_ok_inv _ _ _ _ _ Hok) as (bs & Hreq & Hv & Hfresh & Hrest).
      apply IH in Hrest.
      destruct Hrest as (new & -> & Hmap & Hall & Hnodup & Hdisj).
      exists (bs :: new). rewrite <- app_assoc. cbn.
      repeat split.
      * rewrite Hreq, Hmap. reflexivity.
      * constructor; assumption.
      * constructor; [| exact Hnodup].
        intros Hin. apply (Hdisj _ Hin).
        rewrite map_app, in_app_iff. right. left. reflexivity.
      * intros n [<- | Hin]; [exact Hfresh |].
        intros Hacc. apply (Hdisj _ Hin).
        rewrite map_app, in_app_iff. left. exact Hacc.
    + intros (new & -> & Hmap & Hall & Hnodup & Hdisj).
      destruct new as [| bs new]; [discriminate |].
      cbn in Hmap. injection Hmap as Hreq Hmap.
      destruct (requested_replica_inv _ _ Hreq)
        as (node & core & Hn & Hc & Hin & Hic & ->).
      rewrite (collect_step _ _ _ _ _ _ Hn Hc Hin Hic).
      inversion Hall as [| ? ? Hv Hall']; subst. cbn in Hv. rewrite Hv.
      cbn [negb].
      destruct (existsb (fun bs => admin.node_id bs =? node) acc) eqn:Hex.
      * exfalso. apply existsb_node_id in Hex.
        apply (Hdisj node); [left; reflexivity | exact Hex].
      * apply IH. exists new. rewrite <- app_assoc. cbn.
        inversion Hnodup as [| ? ? Hnotin Hnodup']; subst.
        repeat split; try assumption.
        intros n Hnew. rewrite map_app, in_app_iff. cbn.
        intros [Hacc | [<- | []]].
        -- apply (Hdisj n); [right; exact Hnew | exact Hacc].
        -- apply Hnotin. exact Hnew.
Qed.

Example two_replicas_accepted :
  admin.validate_set_replicas (fun node shard => (node <? 4) && (shard <? 8))
    (admin.j_array [admin.replica 1 0; admin.replica 2 7])
  = admin.ok [admin.mk_broker_shard 1 0; admin.mk_broker_shard 2 7].
Proof. reflexivity. Qed.

Example repeated_node_rejected :
  admin.validate_set_replicas (fun node shard => (node <? 4) && (shard <? 8))
    (admin.j_array [admin.replica 1 0; admin.replica 2 7; admin.replica 1 3])
  = admin.bad_request_exception (admin.node_more_than_once 1).
Proof. reflexivity. Qed.

Example negative_core_wraps :
  admin.validate_set_replicas (fun node shard => (node <? 4) && (shard <? 8))
    (admin.j_array [admin.replica 1 (- 1)])
  = admin.bad_request_exception (admin.non_existent_node_shard 1 4294967295).
Proof. reflexivity. Qed.

Example fraction_rejected :
  admin.validate_set_replicas (fun _ _ => true)
    (admin.j_array
       [admin.j_object [("node_id"%string, admin.j_double);
                        ("core"%string, admin.j_int 0)]])
  = admin.bad_request_exception admin.must_be_integers.
Proof. reflexivity. Qed.

Lemma validate_set_replicas_spec (validate_shard : Z -> Z -> bool)
    (doc : admin.json) (rs : list admin.broker_shard) :
  admin.validate_set_replicas validate_shard doc = admin.ok rs <->
  admin.conforms doc = true
  /\ exists items,
       doc = admin.j_array items
       /\ map admin.requested_replica items = map Some rs
       /\ admin.well_placed validate_shard rs.
Proof.
  unfold admin.validate_set_replicas, admin.well_placed.
  destruct (admin.conforms doc) eqn:Hconf; cbn [negb].
  - destruct doc as [| | | | | items |]; try discriminate Hconf.
    rewrite collect_ok_iff. split.
    + intros (new & -> & Hmap & Hall & Hnodup & _). cbn.
      split; [reflexivity |]. exists items. auto.
    + intros (_ & items' & [= <-] & Hmap & Hall & Hnodup).
      exists rs. cbn. repeat split; auto.
  - split; [discriminate |]. intros [H _]. discriminate H.
Qed.

(** X16: [validate_set_replicas] returns a replica set exactly when the
    body conforms to the schema, every item gives an integer node and
    core, the returned list holds the items' replicas in their order,
    every one of them passes [validate_shard], and no node occurs twice. *)
Theorem validate_set_replicas_ok_iff (validate_shard : Z -> Z -> bool)
    (doc : admin.json) (rs : list admin.broker_shard) :
  admin.validate_set_replicas validate_shard doc = admin.ok rs <->
  admin.conforms doc = true
  /\ exists items,
       doc = admin.j_array items
       /\ map admin.requested_replica items = map Some rs
       /\ admin.well_placed validate_shard rs.
Proof.
  apply validate_set_replicas_spec.
Qed.

Lemma conforms_item_members (r : admin.json) :
  admin.conforms_item r = true ->
  exists a b,
    admin.member r "node_id" = Some a /\ admin.member r "core" = Some b.
Proof.
  destruct r as [| | | | | | members]; try discriminate. cbn.
  rewrite !andb_true_iff. intros [[_ Hnode] Hcore].
  assert (Hfind : forall name,
             existsb (fun m : string * admin.json => String.eqb (fst m) name)
               members = true ->
             exists v,
               option_map snd
                 (find (fun m : string * admin.json => String.eqb (fst m) name)
                    members) = Some v).
  { intros name Hex.
    destruct (find (fun m : string * admin.json => String.eqb (fst m) name)
                members) as [m |] eqn:Hf.
    - exists (snd m). reflexivity.
    - apply existsb_exists in Hex. destruct Hex as (m & Hin & Hm).
      rewrite (find_none _ _ Hf m Hin) in Hm. discriminate. }
  destruct (Hfind _ Hnode) as [a Ha]. destruct (Hfind _ Hcore) as [b Hb].
  eauto.
Qed.

Lemma IsInt_j_int (v : admin.json) :
  admin.IsInt v = true -> exists n, v = admin.j_int n.
Proof.
  destruct v; try discriminate. eauto.
Qed.

Lemma collect_asserts_nothing (validate_shard : Z -> Z -> bool)
    (items : list admin.json) :
  forallb admin.conforms_item items = true ->
  forall acc,
    admin.collect validate_shard items acc <> admin.undefined
    /\ admin.collect validate_shard items acc
       <> admin.bad_request_exception admin.expected_array.
Proof.
  induction items as [| r rest IH]; intros Hconf acc.
  - cbn. split; discriminate.
  - cbn in Hconf. apply andb_true_iff in Hconf. destruct Hconf as [Hr Hrest].
    destruct (conforms_item_members r Hr) as (a & b & Ha & Hb).
    cbn [admin.collect]. rewrite Ha, Hb.
    destruct (admin.IsInt a) eqn:Hia; cbn [negb orb];
      [| split; discriminate].
    destruct (admin.IsInt b) eqn:Hib; cbn [negb];
      [| split; discriminate].
    destruct (IsInt_j_int a Hia) as [node ->].
    destruct (IsInt_j_int b Hib) as [core ->].
    destruct (validate_shard node (admin.static_cast_uint32 core));
      cbn [negb]; [| split; discriminate].
    destruct (existsb (fun bs => admin.node_id bs =? node) acc);
      [split; discriminate |].
    apply IH. exact Hrest.
Qed.

(** X17: the schema check guards every access of [validate_set_replicas]
    to the body: no assertion of the JSON library is reached, and the
    [Expected array] rejection after the check is never raised. *)
Theorem validate_set_replicas_asserts_nothing
    (validate_shard : Z -> Z -> bool) (doc : admin.json) :
  admin.validate_set_replicas validate_shard doc <> admin.undefined
  /\ admin.validate_set_replicas validate_shard doc
     <> admin.bad_request_exception admin.expected_array.
Proof.
  unfold admin.validate_set_replicas.
  destruct (admin.conforms doc) eqn:Hconf; cbn [negb];
    [| split; discriminate].
  destruct doc as [| | | | | items |]; try discriminate Hconf.
  apply collect_asserts_nothing. exact Hconf.
Qed.

Lemma static_cast_uint32_range (n : Z) :
  0 <= admin.static_cast_uint32 n < 2 ^ 32
  /\ (0 <= n < 2 ^ 32 -> admin.static_cast_uint32 n = n)
  /\ (- 2 ^ 31 <= n < 0 -> admin.static_cast_uint32 n = n + 2 ^ 32).
Proof.
  unfold admin.static_cast_uint32. rewrite Z.land_ones by lia.
  repeat split.
  - apply Z.mod_pos_bound. lia.
  - apply Z.mod_pos_bound. lia.
  - intros H. apply Z.mod_small. exact H.
  - intros H. symmetry. apply Z.mod_unique with (q := -1); lia.
Qed.

(** X18: in a replica set that [validate_set_replicas] returns, every
    node is a 32-bit integer and every shard is below [2^32]; a negative
    core of the body is not rejected as such but reaches [validate_shard]
    as the core plus [2^32]. *)
Theorem validate_set_replicas_ranges (validate_shard : Z -> Z -> bool)
    (doc : admin.json) (rs : list admin.broker_shard) :
  admin.validate_set_replicas validate_shard doc = admin.ok rs ->
  Forall (fun bs => Int.is_int32 (admin.node_id bs)
                    /\ 0 <= admin.shard bs < 2 ^ 32) rs
  /\ (forall items r core,
        doc = admin.j_array items ->
        In r items ->
        admin.member r "core" = Some (admin.j_int core) ->
        core < 0 ->
        exists bs, In bs rs /\ admin.shard bs = core + 2 ^ 32
                   /\ validate_shard (admin.node_id bs) (core + 2 ^ 32) = true).
Proof.
  intros Hok. apply validate_set_replicas_spec in Hok.
  destruct Hok as (_ & items & -> & Hmap & Hall & _).
  assert (Hitem : forall r, In r items ->
            exists bs, In bs rs /\ admin.requested_replica r = Some bs).
  { intros r Hin. apply (in_map admin.requested_replica) in Hin.
    rewrite Hmap in Hin. apply in_map_iff in Hin.
    destruct Hin as (bs & Heq & Hbs). eauto. }
  split.
  - apply Forall_forall. intros bs Hbs.
    apply (in_map (@Some _)) in Hbs. rewrite <- Hmap in Hbs.
    apply in_map_iff in Hbs. destruct Hbs as (r & Hreq & _).
    destruct (requested_replica_inv _ _ Hreq)
      as (node & core & _ & _ & Hin & _ & ->). cbn.
    split; [| apply static_cast_uint32_range].
    cbn in Hin. apply andb_true_iff in Hin. destruct Hin as [H1 H2].
    apply Z.leb_le in H1, H2. split; assumption.
  - intros items' r core [= <-] Hin Hcore Hneg.
    destruct (Hitem r Hin) as (bs & Hbs & Hreq).
    destruct (requested_replica_inv _ _ Hreq)
      as (node & core' & _ & Hc & _ & Hic & ->).
    rewrite Hcore in Hc. injection Hc as <-.
    cbn in Hic. apply andb_true_iff in Hic. destruct Hic as [Hlo _].
    apply Z.leb_le in Hlo. unfold Int.int32_min in Hlo.
    destruct (static_cast_uint32_range core) as (_ & _ & Hwrap).
    rewrite Forall_forall in Hall. specialize (Hall _ Hbs). cbn in Hall.
    rewrite (Hwrap ltac:(lia)) in Hbs, Hall.
    exists (admin.mk_broker_shard node (core + 2 ^ 32)). auto.
Qed.

Lemma validate_set_replicas_ranges_witness :
  Forall (fun bs => Int.is_int32 (admin.node_id bs)
                    /\ 0 <= admin.shard bs < 2 ^ 32)
    [admin.mk_broker_shard 1 4294967295].
Proof.
  apply (proj1 (validate_set_replicas_ranges (fun _ _ => true)
                  (admin.j_array [admin.replica 1 (- 1)])
                  [admin.mk_broker_shard 1 4294967295] eq_refl)).
Defined.

Lemma validate_set_replicas_ok_iff_witness :
  admin.conforms (admin.j_array [admin.replica 1 0; admin.replica 2 7]) = true.
Proof.
  apply (proj1 (validate_set_replicas_ok_iff
                  (fun node shard => (node <? 4) && (shard <? 8))
                  (admin.j_array [admin.replica 1 0; admin.replica 2 7])
                  [admin.mk_broker_shard 1 0; admin.mk_broker_shard 2 7])
           eq_refl).
Defined.

Lemma deploy_transform_success_witness :
  transform.calls
    (transform.deploy_transform transform.healthy_env
       (transform.mk_transform_metadata "tee" 0 0) [Byte.x00])
  = [transform.store_wasm_binary_call [Byte.x00] 3;
     transform.upsert_transform_call
       (transform.mk_transform_metadata "tee" 42 8) 101].
Proof.
  destruct (deploy_transform_success transform.healthy_env
              (transform.mk_transform_metadata "tee" 0 0) [Byte.x00] eq_refl)
    as [[Hstore _] | (key & offset & Hstore & _ & Hcalls)].
  - discriminate Hstore.
  - injection Hstore as <- <-. exact Hcalls.
Defined.

(** ** The admin server: integer query parameters *)

Example negative_parameter_wraps :
  admin.get_integer_query_param admin.sample_stoi admin.sample_query "limit"
  = admin.param_value (Some 18446744073709551615).
Proof. reflexivity. Qed.

Example absent_parameter :
  admin.get_integer_query_param admin.sample_stoi admin.sample_query "page"
  = admin.param_value None.
Proof. reflexivity. Qed.

(** X19: an integer query parameter that [get_integer_query_param]
    returns is the [int] that [std::stoi] read, when that is not
    negative, and that [int] plus [2^64] otherwise; so the value is below
    [2^31] or at least [2^64 - 2^31]. *)
Theorem get_integer_query_param_values (stoi : string -> admin.stoi_result)
    (query_parameters : string -> option string) (name : string) (v : Z) :
  (forall s n, stoi s = admin.stoi_value n -> Int.is_int32 n) ->
  admin.get_integer_query_param stoi query_parameters name
  = admin.param_value (Some v) ->
  exists s n,
    query_parameters name = Some s
    /\ stoi s = admin.stoi_value n
    /\ (0 <= n -> v = n /\ 0 <= v < 2 ^ 31)
    /\ (n < 0 -> v = n + 2 ^ 64 /\ 2 ^ 64 - 2 ^ 31 <= v < 2 ^ 64).
Proof.
  intros Hint. unfold admin.get_integer_query_param.
  destruct (query_parameters name) as [s |]; [| discriminate].
  destruct (stoi s) as [n | |] eqn:Hs; try discriminate.
  intros [= <-]. exists s, n.
  pose proof (Hint s n Hs) as Hn.
  unfold Int.is_int32, Int.int32_min, Int.int32_max in Hn.
  rewrite Z.land_ones by lia.
  repeat split; try reflexivity; try assumption.
  - rewrite Z.mod_small by lia. reflexivity.
  - rewrite Z.mod_small by lia. lia.
  - rewrite Z.mod_small by lia. lia.
  - symmetry. apply Z.mod_unique with (q := -1); lia.
  - assert (Hv : n mod 2 ^ 64 = n + 2 ^ 64)
      by (symmetry; apply Z.mod_unique with (q := -1); lia).
    lia.
  - apply Z.mod_pos_bound. lia.
Qed.

Lemma sample_stoi_int (s : string) (n : Z) :
  admin.sample_stoi s = admin.stoi_value n -> Int.is_int32 n.
Proof.
  unfold admin.sample_stoi, Int.is_int32, Int.int32_min, Int.int32_max.
  destruct (String.eqb s "30"); [intros [= <-]; lia |].
  destruct (String.eqb s "-1"); [intros [= <-]; lia |].
  destruct (String.eqb s "99999999999"); discriminate.
Defined.

Lemma get_integer_query_param_values_witness :
  exists s n,
    admin.sample_query "limit" = Some s
    /\ admin.sample_stoi s = admin.stoi_value n
    /\ (0 <= n -> 18446744073709551615 = n
                  /\ 0 <= 18446744073709551615 < 2 ^ 31)
    /\ (n < 0 -> 18446744073709551615 = n + 2 ^ 64
                 /\ 2 ^ 64 - 2 ^ 31 <= 18446744073709551615 < 2 ^ 64).
Proof.
  apply (get_integer_query_param_values admin.sample_stoi admin.sample_query
           "limit" 18446744073709551615 sample_stoi_int).
  reflexivity.
Defined.
